(** * RegiMed rule-matching engine: [compare.py] and the report of [app.py]

    A shallow embedding of the three functions of [compare.py]
    ([load_rules], [check_rules], [summarize_missing]) and of the report
    assembled at the end of [upload_file] in [app.py].

    Python data is modelled as follows.
    - A [str] is a list of characters.  The character type is left
      abstract (any countable type: Unicode code points in CPython); the
      tables CPython consults for [str.lower] and [str.strip] are not part
      of the repository and are taken as parameters.
    - An [int] is a [Z]; [len] returns a [Z].
    - A [float] is modelled by the rational number it is computed from
      ([Q]); comparisons between floats are comparisons in [Q].
    - A [dict] with string keys is a [gmap string _].
    - A raised exception is the [Raise] case of [result]. *)

From Stdlib Require Import ZArith QArith Lia Ascii String.
From stdpp Require Import base tactics option list gmap gmultiset strings.

Local Open Scope Z_scope.

(** ** Exceptions *)

Inductive exn : Type :=
| FileNotFoundError
| PermissionError
| IsADirectoryError
| NotADirectoryError
| UnicodeDecodeError
| OSError.

Inductive result (A : Type) : Type :=
| Ok (a : A)
| Raise (e : exn).

Arguments Ok {A} a.
Arguments Raise {A} e.

(** Sequencing: a raised exception skips the rest of the block. *)
Global Instance result_bind : MBind result := fun A B k m =>
  match m with
  | Ok a => k a
  | Raise e => Raise e
  end.

(** [try: body except E: handler], where [catches] decides whether the
    raised exception is an instance of [E]. *)
Definition try_except {A : Type} (body : result A) (catches : exn -> bool)
    (handler : result A) : result A :=
  match body with
  | Ok a => Ok a
  | Raise e => if catches e then handler else Raise e
  end.

Definition is_FileNotFoundError (e : exn) : bool :=
  match e with
  | FileNotFoundError => true
  | _ => false
  end.

(** ** Strings *)

Section Strings.
Context {char : Type} `{Countable char}.

Local Abbreviation str := (list char).

Definition len {A : Type} (l : list A) : Z := Z.of_nat (length l).

(** [s.startswith(prefix)] *)
Fixpoint startswith (s prefix : str) {struct prefix} : bool :=
  match prefix, s with
  | [], _ => true
  | _ :: _, [] => false
  | p :: prefix', c :: s' => bool_decide (p = c) && startswith s' prefix'
  end.

(** [sub in s]: some position of [s] starts an occurrence of [sub]. *)
Fixpoint str_in (sub s : str) : bool :=
  startswith s sub ||
  match s with
  | [] => false
  | _ :: s' => str_in sub s'
  end.

(** The property [str_in] decides. *)
Definition substring (sub s : str) : Prop :=
  exists before after : str, s = before ++ sub ++ after.

(** Truth value of a string: empty strings are false. *)
Definition str_truthy (s : str) : bool :=
  match s with
  | [] => false
  | _ :: _ => true
  end.

(** *** [str.strip] *)

Section Strip.
Variable is_space : char -> bool.

Fixpoint lstrip (s : str) : str :=
  match s with
  | [] => []
  | c :: s' => if is_space c then lstrip s' else s
  end.

Definition rstrip (s : str) : str := reverse (lstrip (reverse s)).

Definition strip (s : str) : str := rstrip (lstrip s).

(** A string that does not start with white space. *)
Definition no_leading_space (s : str) : Prop :=
  match s with
  | [] => True
  | c :: _ => is_space c = false
  end.

(** [t] is [s] without the white space at its two ends: what was cut is
    white space, and [t] neither starts nor ends with white space. *)
Definition trimmed (s t : str) : Prop :=
  (exists leading trailing : str,
     s = leading ++ t ++ trailing /\
     Forall (fun c => is_space c = true) leading /\
     Forall (fun c => is_space c = true) trailing) /\
  no_leading_space t /\ no_leading_space (reverse t).
End Strip.

(** *** [difflib.SequenceMatcher(None, a, b).quick_ratio()] *)

(** The dictionary [fullbcount]: how often each element occurs in [b]. *)
Definition fullbcount_step (fullbcount : gmap char Z) (elt : char)
    : gmap char Z :=
  <[elt := default 0 (fullbcount !! elt) + 1]> fullbcount.

Definition fullbcount_of (b : str) : gmap char Z :=
  foldl fullbcount_step ∅ b.

(** One round of the loop over [a]; the state is [(avail, matches)]. *)
Definition quick_step (fullbcount : gmap char Z)
    (st : gmap char Z * Z) (elt : char) : gmap char Z * Z :=
  let numb :=
    match st.1 !! elt with
    | Some n => n
    | None => default 0 (fullbcount !! elt)
    end in
  (<[elt := numb - 1]> st.1, if 0 <? numb then st.2 + 1 else st.2).

(** What [numb] is for [c] in a given state of the loop: the entry of
    [avail], or that of [fullbcount] when [avail] has none. *)
Definition remaining (fullbcount avail : gmap char Z) (c : char) : Z :=
  match avail !! c with
  | Some n => n
  | None => default 0 (fullbcount !! c)
  end.

Definition quick_matches (a b : str) : Z :=
  (foldl (quick_step (fullbcount_of b)) (∅, 0) a).2.

Definition _calculate_ratio (matches length : Z) : Q :=
  if decide (length = 0) then 1%Q
  else (inject_Z 2 * inject_Z matches / inject_Z length)%Q.

Definition quick_ratio (a b : str) : Q :=
  _calculate_ratio (quick_matches a b) (len a + len b).

(** *** The measure the specification describes

    An alignment of [a] and [b] pairs positions holding equal
    characters and keeps their order, so its matched characters form a
    common subsequence; the longest alignment matches [lcs_length a b]
    characters. *)
Fixpoint lcs_length (a b : str) : nat :=
  match a with
  | [] => 0%nat
  | x :: a' =>
      (fix against (b : str) : nat :=
         match b with
         | [] => 0%nat
         | y :: b' =>
             if decide (x = y) then S (lcs_length a' b')
             else Nat.max (lcs_length a' b) (against b')
         end) b
  end.

Definition alignment_ratio (a b : str) : Q :=
  (inject_Z 2 * inject_Z (Z.of_nat (lcs_length a b))
   / inject_Z (len a + len b))%Q.

(** The number of characters two strings share, counted with
    multiplicity and regardless of position. *)
Definition shared_chars (a b : str) : Z :=
  Z.of_nat (size (list_to_set_disj a ∩ list_to_set_disj b : gmultiset char)).

(** Twice the shared characters over the total length, and 1 when there
    is nothing to compare. *)
Definition shared_ratio (a b : str) : Q :=
  if decide (a = [] /\ b = []) then 1%Q
  else (inject_Z (2 * shared_chars a b) / inject_Z (len a + len b))%Q.

(** ** Python values stored in the result dictionaries *)

Inductive pyval : Type :=
| VStr (s : str)
| VBool (b : bool)
| VFloat (q : Q).

Definition truthy (v : pyval) : bool :=
  match v with
  | VStr s => str_truthy s
  | VBool b => b
  | VFloat q => negb (Qeq_bool q 0)
  end.

(** [not d.get(key)]: a missing key yields [None], which is false. *)
Definition get_truthy (d : gmap string pyval) (key : string) : bool :=
  match d !! key with
  | Some v => truthy v
  | None => false
  end.

(** A dictionary that has a Boolean under ["found"] and a string under
    ["rule"], as those [check_rules] builds. *)
Definition well_formed (d : gmap string pyval) : Prop :=
  (exists found : bool, d !! "found"%string = Some (VBool found)) /\
  (exists rule : str, d !! "rule"%string = Some (VStr rule)).

(** ** [check_rules] *)

Variable lower : str -> str.

Definition match_result (rule : str) (found : bool) (ratio : Q)
    : gmap string pyval :=
  {[ "rule"%string := VStr rule;
     "found"%string := VBool found;
     "similarity"%string := VFloat ratio ]}.

(** The body of the loop: [results] is the list built so far. *)
Definition check_step (text_lower : str) (threshold : Q)
    (results : list (gmap string pyval)) (rule : str)
    : list (gmap string pyval) :=
  let rule_lower := lower rule in
  let ratio := quick_ratio rule_lower text_lower in
  let found := str_in rule_lower text_lower || Qle_bool threshold ratio in
  results ++ [match_result rule found ratio].

(** The dictionary appended for one rule. *)
Definition rule_result (text_lower : str) (threshold : Q) (rule : str)
    : gmap string pyval :=
  let rule_lower := lower rule in
  let ratio := quick_ratio rule_lower text_lower in
  match_result rule (str_in rule_lower text_lower || Qle_bool threshold ratio)
    ratio.

Definition check_rules (text : str) (rules : list str) (threshold : Q)
    : list (gmap string pyval) :=
  let text_lower := lower text in
  foldl (check_step text_lower threshold) [] rules.

Definition default_threshold : Q := 1 # 2.

(** [reports_similarity measure text rules threshold]: the similarity
    stored for every rule is [measure] of the lowercased rule and the
    lowercased text. *)
Definition reports_similarity (measure : str -> str -> Q)
    (text : str) (rules : list str) (threshold : Q) : Prop :=
  Forall2 (fun rule d =>
             exists q, d !! "similarity"%string = Some (VFloat q) /\
                       (q == measure (lower rule) (lower text))%Q)
          rules (check_rules text rules threshold).

(** ** [summarize_missing]

    The loop runs in an environment holding both local variables, the
    argument [results] and the list [missing] under construction. *)

Record sm_env : Type := SmEnv {
  v_results : list (gmap string pyval);
  v_missing : list pyval
}.

Definition sm_body (env : sm_env) (result : gmap string pyval) : sm_env :=
  if negb (get_truthy result "found") then
    SmEnv (v_results env)
          (v_missing env ++ [default (VStr []) (result !! "rule"%string)])
  else env.

Definition sm_run (results : list (gmap string pyval)) : sm_env :=
  foldl sm_body (SmEnv results []) results.

Definition summarize_missing (results : list (gmap string pyval))
    : list pyval :=
  v_missing (sm_run results).

(** The rule text of a result whose [found] is [False], if it is one. *)
Definition missing_rule (d : gmap string pyval) : option pyval :=
  match d !! "found"%string with
  | Some (VBool false) => d !! "rule"%string
  | _ => None
  end.

(** ** [load_rules] *)

Variable is_space : char -> bool.
Variables LF CR : char.

(** Text mode with [newline=None]: ["\r\n"] and a lone ["\r"] are read
    as ["\n"]. *)
Fixpoint universal_newlines (s : str) : str :=
  match s with
  | [] => []
  | c :: s' =>
      if decide (c = CR) then
        LF :: match s' with
              | d :: s'' =>
                  if decide (d = LF) then universal_newlines s''
                  else universal_newlines s'
              | [] => []
              end
      else c :: universal_newlines s'
  end.

(** Cut after every ["\n"], keeping it; [line] is the line being read. *)
Fixpoint split_lines (line : str) (s : str) : list str :=
  match s with
  | [] => if str_truthy line then [line] else []
  | c :: s' =>
      if decide (c = LF) then (line ++ [c]) :: split_lines [] s'
      else split_lines (line ++ [c]) s'
  end.

(** An open file: what decoding its bytes gives, and what closing does. *)
Record file : Type := File {
  f_read : result str;
  f_close : result unit
}.

(** [open(path, "r", encoding="utf-8")] for each path. *)
Definition filesystem : Type := str -> result file.

Definition readlines (f : file) : result (list str) :=
  content ← f_read f; Ok (split_lines [] (universal_newlines content)).

(** [with f: body]: the file is closed however the body ends, and a
    failure to close is raised. *)
Definition with_file {A : Type} (f : file) (body : result A) : result A :=
  match body with
  | Ok a => _ ← f_close f; Ok a
  | Raise e => _ ← f_close f; Raise e
  end.

(** [[line.strip() for line in lines if line.strip()]] *)
Definition stripped_lines (lines : list str) : list str :=
  flat_map (fun line =>
              if str_truthy (strip is_space line)
              then [strip is_space line] else []) lines.

Definition load_rules_try (fs : filesystem) (path : str)
    : result (list str) :=
  f ← fs path;
  rules ← with_file f (lines ← readlines f; Ok (stripped_lines lines));
  Ok rules.

Definition load_rules (fs : filesystem) (path : str) : result (list str) :=
  try_except (load_rules_try fs path) is_FileNotFoundError (Ok []).

(** ** The report of [upload_file] *)

Record ComplianceReport : Type := Report {
  filename : str;
  total_rules : Z;
  rules_found : Z;
  rules_missing : Z;
  missing_rules : list pyval;
  details : list (gmap string pyval);
  compliant : bool
}.

Definition compliance_report (name text : str) (rules : list str)
    : ComplianceReport :=
  let results := check_rules text rules default_threshold in
  let missing := summarize_missing results in
  {| filename := name;
     total_rules := len rules;
     rules_found := len rules - len missing;
     rules_missing := len missing;
     missing_rules := missing;
     details := results;
     compliant := bool_decide (len missing = 0) |}.

(** Lines 118 to 131 of [upload_file], once the text is extracted. *)
Definition upload_report (fs : filesystem) (rules_path name text : str)
    : result ComplianceReport :=
  rules ← load_rules fs rules_path;
  Ok (compliance_report name text rules).
End Strings.

(** ** An instance: ASCII text

    Concrete inputs are written over 7-bit characters, where [str.lower]
    maps [A-Z] to [a-z] and the white space of [str.strip] is the
    characters 9 to 13 and 28 to 32. *)

Module AsciiText.
Definition lower_char (c : ascii) : ascii :=
  let n := N_of_ascii c in
  if ((65 <=? n) && (n <=? 90))%N then ascii_of_N (n + 32) else c.

Definition lower (s : list ascii) : list ascii := map lower_char s.

Definition is_space (c : ascii) : bool :=
  let n := N_of_ascii c in
  (((9 <=? n) && (n <=? 13)) || ((28 <=? n) && (n <=? 32)))%N.

Definition LF : ascii := "010"%char.
Definition CR : ascii := "013"%char.

Definition py (s : string) : list ascii := list_ascii_of_string s.

Definition check (text : string) (rules : list string) (threshold : Q)
    : list (gmap string pyval) :=
  check_rules lower (py text) (map py rules) threshold.

(** A rules file with a blank line and padded lines, a file that may not
    be opened, and a file whose bytes do not decode. *)
Definition rules_txt : list ascii :=
  py "Patient data must be encrypted" ++ [CR; LF]
  ++ py "   " ++ [LF]
  ++ py "  Access logs retained for six years " ++ [LF].

Definition disk : @filesystem ascii := fun path =>
  if decide (path = py "rules.txt") then Ok (File (Ok rules_txt) (Ok tt))
  else if decide (path = py "locked.txt") then Raise PermissionError
  else if decide (path = py "binary.txt")
       then Ok (File (Raise UnicodeDecodeError) (Ok tt))
  else Raise FileNotFoundError.

Definition load (path : string) : result (list (list ascii)) :=
  load_rules is_space LF CR disk (py path).

Definition report (name text : string) (rules : list string)
    : ComplianceReport :=
  compliance_report lower (py name) (py text) (map py rules).
End AsciiText.

(** * Properties *)

(** ** Substring search *)

Section StringFacts.
Context {char : Type} `{Countable char}.
Implicit Types s sub : list char.

Lemma startswith_spec s prefix :
  startswith s prefix = true <-> exists rest, s = prefix ++ rest.
Proof.
  revert s. induction prefix as [|p prefix IH]; intros s; simpl.
  - split; [intros _; exists s; reflexivity | reflexivity].
  - destruct s as [|c s]; simpl.
    + split; [discriminate | intros [rest Hrest]; discriminate].
    + rewrite andb_true_iff, bool_decide_eq_true, IH. split.
      * intros [-> [rest ->]]. exists rest. reflexivity.
      * intros [rest Hrest]. injection Hrest as -> ->. eauto.
Qed.

Lemma str_in_spec sub s : str_in sub s = true <-> substring sub s.
Proof.
  unfold substring. induction s as [|c s IH]; simpl.
  - rewrite orb_false_r, startswith_spec. split.
    + intros [rest Hrest]. exists [], rest. exact Hrest.
    + intros [before [after Heq]]. destruct before; [eauto|discriminate].
  - rewrite orb_true_iff, startswith_spec, IH. split.
    + intros [[rest Hrest]|[before [after Heq]]].
      * exists [], rest. exact Hrest.
      * exists (c :: before), after. simpl. congruence.
    + intros [[|b before] [after Heq]]; simpl in Heq.
      * left. eauto.
      * right. injection Heq as -> ->. eauto.
Qed.

Lemma str_in_empty s : str_in [] s = true.
Proof. apply str_in_spec. exists [], s. reflexivity. Qed.

Lemma str_in_of_empty sub : str_in sub [] = true -> sub = [].
Proof.
  intros [before [after Heq]]%str_in_spec.
  symmetry in Heq. apply app_eq_nil in Heq as [_ Heq].
  apply app_eq_nil in Heq as [Heq _]. exact Heq.
Qed.

(** ** The counting loop of [quick_ratio] *)

Lemma fullbcount_fold (b : list char) (m : gmap char Z) (c : char) :
  default 0 (foldl fullbcount_step m b !! c)
  = default 0 (m !! c)
    + Z.of_nat (multiplicity c (list_to_set_disj b : gmultiset char)).
Proof.
  revert m. induction b as [|x b IH]; intros m; simpl.
  - rewrite multiplicity_empty. lia.
  - rewrite IH, multiplicity_disj_union. unfold fullbcount_step.
    destruct (decide (x = c)) as [->|Hne].
    + rewrite lookup_insert_eq, multiplicity_singleton_eq. simpl. lia.
    + rewrite lookup_insert_ne, multiplicity_singleton_ne by congruence. lia.
Qed.

Lemma fullbcount_of_spec (b : list char) (c : char) :
  default 0 (fullbcount_of b !! c)
  = Z.of_nat (multiplicity c (list_to_set_disj b : gmultiset char)).
Proof.
  unfold fullbcount_of. rewrite fullbcount_fold, lookup_empty. simpl. lia.
Qed.

Lemma intersection_cons_elem (x : char) (A B : gmultiset char) :
  x ∈ B ->
  ({[+ x +]} ⊎ A) ∩ B = {[+ x +]} ⊎ (A ∩ (B ∖ {[+ x +]})).
Proof.
  rewrite elem_of_multiplicity. intros Hx. apply gmultiset_eq. intros c.
  rewrite multiplicity_intersection, !multiplicity_disj_union,
    multiplicity_intersection, multiplicity_difference.
  destruct (decide (c = x)) as [->|Hne].
  - rewrite multiplicity_singleton_eq. lia.
  - rewrite multiplicity_singleton_ne by exact Hne. lia.
Qed.

Lemma intersection_cons_not_elem (x : char) (A B : gmultiset char) :
  x ∉ B -> ({[+ x +]} ⊎ A) ∩ B = A ∩ B.
Proof.
  rewrite elem_of_multiplicity. intros Hx. apply gmultiset_eq. intros c.
  rewrite !multiplicity_intersection, multiplicity_disj_union.
  destruct (decide (c = x)) as [->|Hne].
  - rewrite multiplicity_singleton_eq. lia.
  - rewrite multiplicity_singleton_ne by exact Hne. lia.
Qed.

Lemma quick_loop (fullbcount : gmap char Z) (a : list char) :
  forall (avail : gmap char Z) (matches : Z) (B : gmultiset char),
    (forall c, Z.max 0 (remaining fullbcount avail c)
               = Z.of_nat (multiplicity c B)) ->
    (foldl (quick_step fullbcount) (avail, matches) a).2
    = matches + Z.of_nat (size (list_to_set_disj a ∩ B)).
Proof.
  induction a as [|x a IH]; intros avail matches B Hinv; simpl.
  - replace (∅ ∩ B) with (∅ : gmultiset char) by multiset_solver.
    rewrite gmultiset_size_empty. lia.
  - unfold quick_step at 2. simpl.
    fold (remaining fullbcount avail x).
    pose proof (Hinv x) as Hx.
    destruct (Z.ltb_spec 0 (remaining fullbcount avail x)) as [Hpos|Hnpos].
    + assert (x ∈ B) as Hin by (apply elem_of_multiplicity; lia).
      rewrite (IH _ _ (B ∖ {[+ x +]})).
      * rewrite intersection_cons_elem by exact Hin.
        rewrite gmultiset_size_disj_union, gmultiset_size_singleton. lia.
      * intros c. unfold remaining in *. rewrite multiplicity_difference.
        destruct (decide (x = c)) as [->|Hne].
        -- rewrite lookup_insert_eq, multiplicity_singleton_eq. lia.
        -- rewrite lookup_insert_ne, multiplicity_singleton_ne by congruence.
           specialize (Hinv c). lia.
    + assert (x ∉ B) as Hnin by (rewrite elem_of_multiplicity; lia).
      rewrite (IH _ _ B).
      * rewrite intersection_cons_not_elem by exact Hnin. reflexivity.
      * intros c. unfold remaining in *.
        destruct (decide (x = c)) as [->|Hne].
        -- rewrite lookup_insert_eq. lia.
        -- rewrite lookup_insert_ne by congruence.
           exact (Hinv c).
Qed.

Lemma quick_matches_shared (a b : list char) :
  quick_matches a b = shared_chars a b.
Proof.
  unfold quick_matches, shared_chars.
  rewrite (quick_loop _ a ∅ 0 (list_to_set_disj b)); [lia|].
  intros c. unfold remaining. rewrite lookup_empty, fullbcount_of_spec. lia.
Qed.
End StringFacts.

(** ** The similarity ratio *)

Section RatioFacts.
Context {char : Type} `{Countable char}.
Implicit Types a b : list char.

Lemma size_list_to_set_disj (l : list char) :
  size (list_to_set_disj l : gmultiset char) = length l.
Proof.
  induction l as [|x l IH].
  - rewrite list_to_set_disj_nil. apply gmultiset_size_empty.
  - rewrite list_to_set_disj_cons, gmultiset_size_disj_union,
      gmultiset_size_singleton, IH.
    reflexivity.
Qed.

Lemma shared_chars_bounds a b :
  0 <= shared_chars a b /\
  shared_chars a b <= len a /\ shared_chars a b <= len b.
Proof.
  unfold shared_chars, len.
  assert (size (list_to_set_disj a ∩ list_to_set_disj b : gmultiset char)
          <= length a)%nat as Ha.
  { rewrite <- (size_list_to_set_disj a).
    apply gmultiset_subseteq_size. multiset_solver. }
  assert (size (list_to_set_disj a ∩ list_to_set_disj b : gmultiset char)
          <= length b)%nat as Hb.
  { rewrite <- (size_list_to_set_disj b).
    apply gmultiset_subseteq_size. multiset_solver. }
  lia.
Qed.

Lemma shared_chars_nil_r a : shared_chars a [] = 0.
Proof.
  pose proof (shared_chars_bounds a []) as [? [_ ?]].
  unfold len in *. simpl in *. lia.
Qed.

Lemma shared_chars_nil_l b : shared_chars [] b = 0.
Proof.
  pose proof (shared_chars_bounds [] b) as [? [? _]].
  unfold len in *. simpl in *. lia.
Qed.

Lemma calculate_ratio_zero : _calculate_ratio 0 0 = 1%Q.
Proof. reflexivity. Qed.

Lemma calculate_ratio_pos (matches length : Z) :
  0 < length ->
  (_calculate_ratio matches length == (2 * matches) # Z.to_pos length)%Q.
Proof.
  intros Hlen. unfold _calculate_ratio.
  destruct (decide (length = 0)) as [->|_]; [lia|].
  destruct length as [|p|p]; try lia. simpl Z.to_pos.
  rewrite (Qmake_Qdiv (2 * matches) p), inject_Z_mult. reflexivity.
Qed.

Lemma calculate_ratio_range (matches length : Z) :
  0 <= matches -> 2 * matches <= length ->
  (0 <= _calculate_ratio matches length <= 1)%Q.
Proof.
  intros Hm Hl. destruct (decide (length = 0)) as [->|Hne].
  - assert (matches = 0) as -> by lia. rewrite calculate_ratio_zero.
    split; discriminate.
  - rewrite calculate_ratio_pos by lia. unfold Qle. simpl.
    rewrite Z2Pos.id by lia. lia.
Qed.

Lemma quick_ratio_shared a b :
  quick_ratio a b = _calculate_ratio (shared_chars a b) (len a + len b).
Proof. unfold quick_ratio. rewrite quick_matches_shared. reflexivity. Qed.

Lemma quick_ratio_range a b : (0 <= quick_ratio a b <= 1)%Q.
Proof.
  rewrite quick_ratio_shared.
  pose proof (shared_chars_bounds a b) as [? [? ?]].
  apply calculate_ratio_range; lia.
Qed.

Lemma quick_ratio_nil_nil : quick_ratio (@nil char) [] = 1%Q.
Proof. reflexivity. Qed.

Lemma quick_ratio_no_match a b :
  shared_chars a b = 0 -> (a ≠ [] \/ b ≠ []) -> (quick_ratio a b == 0)%Q.
Proof.
  intros Hs Hne. rewrite quick_ratio_shared, Hs.
  rewrite calculate_ratio_pos; [reflexivity|].
  unfold len. destruct Hne as [Hne|Hne];
    [destruct a|destruct b]; try congruence; simpl; lia.
Qed.
End RatioFacts.

(** ** [check_rules] *)

Section CheckerFacts.
Context {char : Type} `{Countable char}.
Variable lower : list char -> list char.
Implicit Types text rule : list char.
Implicit Types rules : list (list char).

Lemma match_result_rule rule found (ratio : Q) :
  match_result rule found ratio !! "rule"%string = Some (VStr rule).
Proof. reflexivity. Qed.

Lemma match_result_found rule found (ratio : Q) :
  match_result rule found ratio !! "found"%string = Some (VBool found).
Proof. reflexivity. Qed.

Lemma match_result_similarity rule found (ratio : Q) :
  match_result rule found ratio !! "similarity"%string = Some (VFloat ratio).
Proof. reflexivity. Qed.

Lemma check_rules_fold text_lower threshold rules :
  forall results,
    foldl (check_step lower text_lower threshold) results rules
    = results ++ map (rule_result lower text_lower threshold) rules.
Proof.
  induction rules as [|rule rules IH]; intros results; simpl.
  - rewrite app_nil_r. reflexivity.
  - rewrite IH. unfold check_step, rule_result.
    rewrite <- app_assoc. reflexivity.
Qed.

Lemma check_rules_map text rules threshold :
  check_rules lower text rules threshold
  = map (rule_result lower (lower text) threshold) rules.
Proof. unfold check_rules. apply check_rules_fold. Qed.

Lemma check_rules_Forall2 (P : list char -> gmap string pyval -> Prop)
    text rules threshold :
  (forall rule, P rule (rule_result lower (lower text) threshold rule)) ->
  Forall2 P rules (check_rules lower text rules threshold).
Proof.
  intros HP. rewrite check_rules_map.
  induction rules as [|rule rules IH]; simpl; constructor; auto.
Qed.
End CheckerFacts.

Section CheckerClaims.
Context {char : Type} `{Countable char}.
Variable lower : list char -> list char.
Implicit Types text rule : list char.
Implicit Types rules : list (list char).

(** C1.  For every text, rule list and threshold, the result stored for a
    rule has [found] true exactly when the lowercased rule is a literal
    substring of the lowercased text or the stored similarity is at least
    the threshold; a substring match alone makes [found] true, whatever
    the similarity and the threshold are. *)
Theorem check_rules_found_iff text rules (threshold : Q) :
  Forall2 (fun rule d =>
             exists (found : bool) (ratio : Q),
               d !! "found"%string = Some (VBool found) /\
               d !! "similarity"%string = Some (VFloat ratio) /\
               (found = true <->
                substring (lower rule) (lower text) \/ (threshold <= ratio)%Q) /\
               (substring (lower rule) (lower text) -> found = true))
          rules (check_rules lower text rules threshold).
Proof.
  apply check_rules_Forall2. intros rule. unfold rule_result.
  eexists _, _. rewrite match_result_found, match_result_similarity.
  split; [reflexivity|]. split; [reflexivity|].
  rewrite orb_true_iff, str_in_spec, Qle_bool_iff. split; [reflexivity|].
  intros Hsub. left. exact Hsub.
Qed.

(** C3.  [check_rules] returns one result per rule, in the order of the
    rules, and each result carries its rule as it was given (before
    lowercasing). *)
Theorem check_rules_one_result_per_rule text rules (threshold : Q) :
  length (check_rules lower text rules threshold) = length rules /\
  map (fun d => d !! "rule"%string) (check_rules lower text rules threshold)
  = map (fun rule => Some (VStr rule)) rules.
Proof.
  rewrite check_rules_map. split.
  - apply length_map.
  - rewrite map_map. apply map_ext. intros rule. apply match_result_rule.
Qed.

(** C5.  Every similarity score stored by [check_rules] lies between 0
    and 1, both included. *)
Theorem check_rules_similarity_range text rules (threshold : Q) :
  Forall (fun d => exists q : Q,
            d !! "similarity"%string = Some (VFloat q) /\ (0 <= q <= 1)%Q)
         (check_rules lower text rules threshold).
Proof.
  rewrite check_rules_map. apply Forall_forall. intros d Hd.
  apply list_elem_of_In, in_map_iff in Hd as [rule [<- _]].
  eexists. split; [apply match_result_similarity|apply quick_ratio_range].
Qed.

(** C2, as amended.  The similarity stored for a rule is twice the number
    of characters the lowercased rule and the lowercased text share,
    counted with multiplicity and regardless of their positions, divided
    by the sum of the two lengths; it is 1 when both are empty. *)
Theorem check_rules_similarity_shared text rules (threshold : Q) :
  reports_similarity lower shared_ratio text rules threshold.
Proof.
  apply check_rules_Forall2. intros rule. eexists.
  split; [apply match_result_similarity|].
  rewrite quick_ratio_shared. unfold shared_ratio, _calculate_ratio, len.
  destruct (lower rule) as [|c r], (lower text) as [|c' t]; simpl length;
    repeat case_decide;
    try reflexivity; try lia; try tauto;
    try (exfalso; intuition discriminate);
    rewrite inject_Z_mult; reflexivity.
Qed.
End CheckerClaims.

(** ** [summarize_missing] and the report *)

Section ReportFacts.
Context {char : Type} `{Countable char}.
Variable lower : list char -> list char.
Implicit Types text rule name : list char.
Implicit Types rules : list (list char).
Implicit Types results : list (gmap string (@pyval char)).

(** The loop never assigns [results] and only appends to [missing]. *)
Lemma sm_fold results :
  forall env : sm_env,
    foldl sm_body env results
    = SmEnv (v_results env)
        (v_missing env
         ++ flat_map (fun d => if negb (get_truthy d "found")
                               then [default (VStr []) (d !! "rule"%string)]
                               else []) results).
Proof.
  induction results as [|d results IH]; intros env; simpl.
  - rewrite app_nil_r. destruct env; reflexivity.
  - rewrite IH. unfold sm_body.
    destruct (negb (get_truthy d "found")); simpl.
    + rewrite <- app_assoc. reflexivity.
    + reflexivity.
Qed.

Lemma sm_run_results results : v_results (sm_run results) = results.
Proof. unfold sm_run. rewrite sm_fold. reflexivity. Qed.

Lemma summarize_missing_omap results :
  Forall well_formed results ->
  summarize_missing results = omap missing_rule results.
Proof.
  intros Hwf. unfold summarize_missing, sm_run. rewrite sm_fold. simpl.
  induction Hwf as [|d results [[found Hfound] [rule Hrule]] _ IH]; simpl.
  - reflexivity.
  - assert (get_truthy d "found" = found) as ->
      by (unfold get_truthy; rewrite Hfound; reflexivity).
    assert (missing_rule d = if found then None else Some (VStr rule)) as ->
      by (unfold missing_rule; rewrite Hfound, Hrule; destruct found;
          reflexivity).
    rewrite Hrule. destruct found; simpl; rewrite IH; reflexivity.
Qed.

Lemma check_rules_well_formed text rules (threshold : Q) :
  Forall well_formed (check_rules lower text rules threshold).
Proof.
  rewrite check_rules_map. apply Forall_forall. intros d Hd.
  apply list_elem_of_In, in_map_iff in Hd as [rule [<- _]].
  split; eexists; reflexivity.
Qed.

Lemma summarize_missing_length results :
  (length (summarize_missing results) <= length results)%nat.
Proof.
  unfold summarize_missing, sm_run. rewrite sm_fold. simpl.
  induction results as [|d results IH]; simpl; [lia|].
  rewrite length_app. destruct (negb _); simpl; lia.
Qed.
End ReportFacts.

Section ReportClaims.
Context {char : Type} `{Countable char}.
Variable lower : list char -> list char.
Implicit Types text rule name : list char.
Implicit Types rules : list (list char).

(** C6.  On the results of [check_rules], [summarize_missing] returns the
    rule texts of exactly the results whose [found] is false, in their
    order; the loop leaves its argument as it was; and in the report the
    number of missing rules is [total_rules - rules_found], the list
    reported being [summarize_missing] of the reported details. *)
Theorem summarize_missing_of_check name text rules (threshold : Q) :
  summarize_missing (check_rules lower text rules threshold)
  = omap missing_rule (check_rules lower text rules threshold) /\
  v_results (sm_run (check_rules lower text rules threshold))
  = check_rules lower text rules threshold /\
  missing_rules (compliance_report lower name text rules)
  = summarize_missing (details (compliance_report lower name text rules)) /\
  len (missing_rules (compliance_report lower name text rules))
  = total_rules (compliance_report lower name text rules)
    - rules_found (compliance_report lower name text rules).
Proof.
  split; [|split; [|split]].
  - apply summarize_missing_omap, check_rules_well_formed.
  - apply sm_run_results.
  - reflexivity.
  - simpl. lia.
Qed.

(** C7.  In the report, [compliant] is true exactly when [missing_rules]
    is empty, which is exactly when [rules_missing] is 0; with no rule at
    all the report is compliant and counts 0 rules. *)
Theorem report_compliant_iff name text rules :
  (compliant (compliance_report lower name text rules) = true
   <-> missing_rules (compliance_report lower name text rules) = []) /\
  (missing_rules (compliance_report lower name text rules) = []
   <-> rules_missing (compliance_report lower name text rules) = 0) /\
  compliant (compliance_report lower name text []) = true /\
  total_rules (compliance_report lower name text []) = 0.
Proof.
  assert (forall l : list (@pyval char), l = [] <-> len l = 0) as Hlen.
  { intros [|v l]; unfold len; simpl; split; try reflexivity;
      try discriminate; lia. }
  split; [|split; [|split]].
  - simpl. rewrite bool_decide_eq_true. symmetry. apply Hlen.
  - simpl. apply Hlen.
  - reflexivity.
  - reflexivity.
Qed.

Hypothesis lower_nil : lower [] = [].
Hypothesis lower_nonempty : forall s, lower s = [] -> s = [].

Lemma rule_result_empty_text rule (threshold : Q) :
  rule <> [] -> (1 # 2 <= threshold)%Q ->
  exists q : Q,
    rule_result lower [] threshold rule = match_result rule false q /\
    (q == 0)%Q.
Proof.
  intros Hrule Hthr.
  assert (lower rule <> []) as Hlow
    by (intros Hl; apply Hrule, lower_nonempty, Hl).
  assert (quick_ratio (lower rule) [] == 0)%Q as Hq
    by (apply quick_ratio_no_match; [apply shared_chars_nil_r|left; exact Hlow]).
  exists (quick_ratio (lower rule) []). split; [|exact Hq].
  unfold rule_result. f_equal. apply orb_false_iff. split.
  - destruct (str_in (lower rule) []) eqn:Hin; [|reflexivity].
    apply str_in_of_empty in Hin. contradiction.
  - destruct (Qle_bool threshold _) eqn:Hle; [|reflexivity].
    apply Qle_bool_iff in Hle. rewrite Hq in Hle.
    pose proof (Qle_trans _ _ _ Hthr Hle) as Habs.
    exfalso. revert Habs. unfold Qle. simpl. lia.
Qed.

Lemma empty_text_missing rules (threshold : Q) :
  Forall (fun rule => rule <> []) rules ->
  (1 # 2 <= threshold)%Q ->
  summarize_missing (check_rules lower [] rules threshold) = map VStr rules.
Proof.
  intros Hrules Hthr.
  rewrite summarize_missing_omap by apply check_rules_well_formed.
  rewrite check_rules_map, lower_nil.
  induction Hrules as [|rule rules Hrule _ IH]; [reflexivity|].
  cbn [map omap list_omap].
  destruct (rule_result_empty_text rule threshold Hrule Hthr) as [q [-> _]].
  change (missing_rule (match_result rule false q)) with (Some (VStr rule)).
  rewrite IH. reflexivity.
Qed.

(** C4.  For the empty text and a threshold of at least 0.5, every
    non-empty rule has [found] false and similarity 0; when no rule is
    empty, every rule is listed as missing, also in the report, and the
    report of a rule set that has a rule is not compliant. *)
Theorem empty_text_all_missing name rules (threshold : Q) :
  (1 # 2 <= threshold)%Q ->
  Forall2 (fun rule d =>
             rule <> [] ->
             d !! "found"%string = Some (VBool false) /\
             exists q : Q, d !! "similarity"%string = Some (VFloat q) /\
                           (q == 0)%Q)
          rules (check_rules lower [] rules threshold) /\
  (Forall (fun rule => rule <> []) rules ->
   summarize_missing (check_rules lower [] rules threshold) = map VStr rules /\
   missing_rules (compliance_report lower name [] rules) = map VStr rules /\
   (rules <> [] ->
    compliant (compliance_report lower name [] rules) = false)).
Proof.
  intros Hthr.
  assert (1 # 2 <= default_threshold)%Q as Hdefault by apply Qle_refl.
  split.
  - apply check_rules_Forall2. intros rule Hrule. rewrite lower_nil.
    destruct (rule_result_empty_text rule threshold Hrule Hthr)
      as [q [-> Hq]].
    split; [reflexivity|]. exists q. split; [reflexivity|exact Hq].
  - intros Hrules. split; [|split].
    + apply empty_text_missing; assumption.
    + apply empty_text_missing; assumption.
    + intros Hne. unfold compliance_report. cbn [compliant].
      rewrite empty_text_missing by assumption.
      apply bool_decide_eq_false. unfold len. rewrite length_map.
      destruct rules; [congruence|simpl; lia].
Qed.

(** C10.  A rule equal to the empty string is reported found for every
    text and threshold; its similarity is 0 when the text is not empty
    and 1 when the text is empty too. *)
Theorem empty_rule_always_found text rules (threshold : Q) :
  Forall2 (fun rule d =>
             rule = [] ->
             d !! "found"%string = Some (VBool true) /\
             exists q : Q, d !! "similarity"%string = Some (VFloat q) /\
                           (text <> [] -> (q == 0)%Q) /\
                           (text = [] -> (q == 1)%Q))
          rules (check_rules lower text rules threshold).
Proof.
  apply check_rules_Forall2. intros rule ->. unfold rule_result.
  rewrite lower_nil, str_in_empty. simpl. split; [reflexivity|].
  eexists. split; [reflexivity|]. split.
  - intros Htext. apply quick_ratio_no_match; [apply shared_chars_nil_l|].
    right. intros Hl. apply Htext, lower_nonempty, Hl.
  - intros ->. rewrite lower_nil. reflexivity.
Qed.
End ReportClaims.

(** ** [load_rules] *)

Section LoadFacts.
Context {char : Type} `{Countable char}.
Variable is_space : char -> bool.
Variables LF CR : char.
Implicit Types s line : list char.

Lemma lstrip_no_leading_space s :
  no_leading_space is_space (lstrip is_space s).
Proof.
  induction s as [|c s IH]; simpl; [exact I|].
  destruct (is_space c) eqn:Hc; [exact IH|exact Hc].
Qed.

Lemma lstrip_fixed s :
  no_leading_space is_space s -> lstrip is_space s = s.
Proof. destruct s as [|c s]; simpl; [reflexivity|]. intros ->. reflexivity. Qed.

Lemma lstrip_suffix s : exists k, s = k ++ lstrip is_space s.
Proof.
  induction s as [|c s [k IH]]; simpl.
  - exists []. reflexivity.
  - destruct (is_space c).
    + exists (c :: k). simpl. rewrite <- IH. reflexivity.
    + exists []. reflexivity.
Qed.

Lemma rstrip_prefix s : exists k, s = rstrip is_space s ++ k.
Proof.
  unfold rstrip. destruct (lstrip_suffix (reverse s)) as [k Hk].
  exists (reverse k). rewrite <- reverse_app, <- Hk, reverse_involutive.
  reflexivity.
Qed.

Lemma rstrip_no_leading_space s :
  no_leading_space is_space s ->
  no_leading_space is_space (rstrip is_space s).
Proof.
  intros Hs. destruct (rstrip_prefix s) as [k Hk].
  destruct (rstrip is_space s) as [|c r]; [exact I|].
  rewrite Hk in Hs. exact Hs.
Qed.

Lemma rstrip_idempotent s :
  rstrip is_space (rstrip is_space s) = rstrip is_space s.
Proof.
  unfold rstrip. rewrite reverse_involutive.
  rewrite (lstrip_fixed (lstrip is_space _)) by apply lstrip_no_leading_space.
  reflexivity.
Qed.

Lemma strip_idempotent s :
  strip is_space (strip is_space s) = strip is_space s.
Proof.
  unfold strip.
  rewrite (lstrip_fixed (rstrip is_space _)).
  - apply rstrip_idempotent.
  - apply rstrip_no_leading_space, lstrip_no_leading_space.
Qed.

Lemma lstrip_cut s :
  exists leading, s = leading ++ lstrip is_space s /\
                  Forall (fun c => is_space c = true) leading.
Proof.
  induction s as [|c s [leading [IH Hall]]]; simpl.
  - exists []. split; [reflexivity|constructor].
  - destruct (is_space c) eqn:Hc.
    + exists (c :: leading). simpl. rewrite <- IH.
      split; [reflexivity|constructor; assumption].
    + exists []. split; [reflexivity|constructor].
Qed.

Lemma rstrip_cut s :
  exists trailing, s = rstrip is_space s ++ trailing /\
                   Forall (fun c => is_space c = true) trailing.
Proof.
  unfold rstrip. destruct (lstrip_cut (reverse s)) as [k [Hk Hall]].
  exists (reverse k). split.
  - rewrite <- reverse_app, <- Hk, reverse_involutive. reflexivity.
  - apply Forall_reverse, Hall.
Qed.

Lemma strip_trimmed s : trimmed is_space s (strip is_space s).
Proof.
  unfold trimmed, strip. split; [|split].
  - destruct (lstrip_cut s) as [leading [Hl Hleading]].
    destruct (rstrip_cut (lstrip is_space s)) as [trailing [Hr Htrailing]].
    exists leading, trailing. split; [|split; assumption].
    rewrite <- Hr. exact Hl.
  - apply rstrip_no_leading_space, lstrip_no_leading_space.
  - unfold rstrip. rewrite reverse_involutive.
    apply lstrip_no_leading_space.
Qed.

Lemma stripped_lines_filter (lines : list (list char)) :
  stripped_lines is_space lines
  = List.filter str_truthy (map (strip is_space) lines).
Proof.
  unfold stripped_lines. induction lines as [|line lines IH]; simpl.
  - reflexivity.
  - rewrite IH. destruct (str_truthy (strip is_space line)); reflexivity.
Qed.

Lemma stripped_lines_rules (lines : list (list char)) :
  Forall (fun rule => rule <> [] /\ strip is_space rule = rule)
         (stripped_lines is_space lines).
Proof.
  rewrite stripped_lines_filter. apply Forall_forall. intros rule Hrule.
  apply list_elem_of_In, filter_In in Hrule as [Hin Hne].
  apply in_map_iff in Hin as [line [<- _]]. split.
  - intros Heq. rewrite Heq in Hne. discriminate.
  - apply strip_idempotent.
Qed.

Lemma split_lines_concat s : forall line,
  concat (split_lines LF line s) = line ++ s.
Proof.
  induction s as [|c s IH]; intros line; simpl.
  - destruct line; simpl; rewrite ?app_nil_r; reflexivity.
  - destruct (decide (c = LF)); simpl; rewrite IH.
    + rewrite <- app_assoc. reflexivity.
    + rewrite <- app_assoc. reflexivity.
Qed.
End LoadFacts.

Section LoadClaims.
Context {char : Type} `{Countable char}.
Variable is_space : char -> bool.
Variables LF CR : char.
Implicit Types s line path content : list char.
Implicit Types fs : @filesystem char.

(** Every line that [split_lines] cuts ends at its first line feed, or is
    the unterminated rest of the text. *)
Lemma split_lines_shape s : forall line,
  LF ∉ line ->
  Forall (fun l => exists body,
            (LF ∉ body) /\ (l = body ++ [LF] \/ (l = body /\ body <> [])))
         (split_lines LF line s).
Proof.
  induction s as [|c s IH]; intros line Hline; simpl.
  - destruct line as [|c line]; simpl; constructor; [|constructor].
    exists (c :: line). split; [exact Hline|]. right. split; congruence.
  - destruct (decide (c = LF)) as [->|Hne].
    + constructor.
      * exists line. split; [exact Hline|]. left. reflexivity.
      * apply IH. apply not_elem_of_nil.
    + apply IH. rewrite elem_of_app, list_elem_of_singleton.
      intros [?|?]; [contradiction|congruence].
Qed.

Lemma load_rules_try_ok fs path (f : file) content :
  fs path = Ok f -> f_read f = Ok content -> f_close f = Ok tt ->
  load_rules_try is_space LF CR fs path
  = Ok (stripped_lines is_space
          (split_lines LF [] (universal_newlines LF CR content))).
Proof.
  intros Hopen Hread Hclose. unfold load_rules_try, readlines.
  rewrite Hopen. simpl. rewrite Hread. simpl. rewrite Hclose. reflexivity.
Qed.

Lemma load_rules_ok_cases fs path (rules : list (list char)) :
  load_rules is_space LF CR fs path = Ok rules ->
  rules = [] \/ exists lines, rules = stripped_lines is_space lines.
Proof.
  unfold load_rules, load_rules_try, readlines, try_except.
  destruct (fs path) as [f|e]; simpl.
  - destruct (f_read f) as [content|e]; simpl;
      destruct (f_close f) as [u|e']; simpl.
    + intros [= <-]. right. eexists. reflexivity.
    + destruct (is_FileNotFoundError e'); intros [= <-]. left. reflexivity.
    + destruct (is_FileNotFoundError e); intros [= <-]. left. reflexivity.
    + destruct (is_FileNotFoundError e'); intros [= <-]. left. reflexivity.
  - destruct (is_FileNotFoundError e); intros [= <-]. left. reflexivity.
Qed.

(** C8.  When the file opens and reads, [load_rules] returns the lines of
    its text, each without the white space at its two ends, leaving out
    those that become empty, in their order; when opening the file raises
    [FileNotFoundError] it returns the empty list; and every rule it
    returns is non-empty and unchanged by stripping. *)
Theorem load_rules_stripped_lines fs path :
  (forall (f : file) content,
     fs path = Ok f -> f_read f = Ok content -> f_close f = Ok tt ->
     let lines := split_lines LF [] (universal_newlines LF CR content) in
     concat lines = universal_newlines LF CR content /\
     Forall (fun l => exists body,
               (LF ∉ body) /\ (l = body ++ [LF] \/ (l = body /\ body <> [])))
            lines /\
     Forall (fun l => trimmed is_space l (strip is_space l)) lines /\
     load_rules is_space LF CR fs path
     = Ok (List.filter str_truthy (map (strip is_space) lines))) /\
  (fs path = Raise FileNotFoundError ->
   load_rules is_space LF CR fs path = Ok []) /\
  (forall rules : list (list char),
     load_rules is_space LF CR fs path = Ok rules ->
     Forall (fun rule => rule <> [] /\ strip is_space rule = rule) rules).
Proof.
  split; [|split].
  - intros f content Hopen Hread Hclose lines. split; [|split; [|split]].
    + apply (split_lines_concat LF _ []).
    + apply split_lines_shape, not_elem_of_nil.
    + apply Forall_forall. intros l _. apply strip_trimmed.
    + unfold load_rules.
      rewrite (load_rules_try_ok fs path f content Hopen Hread Hclose).
      simpl. rewrite stripped_lines_filter. reflexivity.
  - intros Hopen. unfold load_rules, load_rules_try. rewrite Hopen.
    reflexivity.
  - intros rules Hload.
    destruct (load_rules_ok_cases fs path rules Hload) as [->|[lines ->]].
    + constructor.
    + apply stripped_lines_rules.
Qed.

(** C9.  A failure other than [FileNotFoundError], whether raised on
    opening the file, on reading it or on closing it, is raised by
    [load_rules]: no list is returned. *)
Theorem load_rules_raises_other_failures fs path (e : exn) :
  e <> FileNotFoundError ->
  (fs path = Raise e \/
   exists f : file,
     fs path = Ok f /\
     (f_close f = Raise e \/ (f_close f = Ok tt /\ f_read f = Raise e))) ->
  load_rules is_space LF CR fs path = Raise e /\
  (forall rules : list (list char),
     load_rules is_space LF CR fs path <> Ok rules).
Proof.
  intros Hne Hfail.
  assert (load_rules is_space LF CR fs path = Raise e) as Hraise.
  { assert (is_FileNotFoundError e = false) as Hcatch
      by (destruct e; try reflexivity; congruence).
    unfold load_rules, load_rules_try, readlines, try_except.
    destruct Hfail as [Hopen|[f [Hopen Hf]]]; rewrite Hopen; simpl.
    - rewrite Hcatch. reflexivity.
    - destruct (f_read f) as [content|e1] eqn:Hr; simpl;
        destruct (f_close f) as [u|e2] eqn:Hc; simpl;
        destruct Hf as [Hf|[Hf1 Hf2]]; try congruence.
      + injection Hf as ->. rewrite Hcatch. reflexivity.
      + injection Hf2 as ->. rewrite Hcatch. reflexivity.
      + injection Hf as ->. rewrite Hcatch. reflexivity. }
  split; [exact Hraise|]. intros rules. rewrite Hraise. discriminate.
Qed.
End LoadClaims.

(** ** The longest common subsequence *)

Section AlignmentFacts.
Context {char : Type} `{Countable char}.
Implicit Types a b l : list char.

Lemma lcs_length_nil_r a : lcs_length a [] = 0%nat.
Proof. destruct a; reflexivity. Qed.

Lemma lcs_length_cons (x y : char) a b :
  lcs_length (x :: a) (y :: b)
  = if decide (x = y) then S (lcs_length a b)
    else Nat.max (lcs_length a (y :: b)) (lcs_length (x :: a) b).
Proof. reflexivity. Qed.

Lemma sublist_tail (z : char) l a : z :: l `sublist_of` a -> l `sublist_of` a.
Proof. intros Hs. etransitivity; [|exact Hs]. apply sublist_cons. reflexivity. Qed.

(** No common subsequence is longer than [lcs_length]. *)
Lemma lcs_length_upper a : forall b l,
  l `sublist_of` a -> l `sublist_of` b -> (length l <= lcs_length a b)%nat.
Proof.
  induction a as [|x a IHa]; intros b l Ha Hb.
  { apply sublist_nil_r in Ha as ->. simpl. lia. }
  revert l Ha Hb. induction b as [|y b IHb]; intros l Ha Hb.
  { apply sublist_nil_r in Hb as ->. simpl. lia. }
  rewrite lcs_length_cons.
  apply sublist_cons_r in Ha as [Ha|[la [-> Ha]]];
    apply sublist_cons_r in Hb as [Hb|[lb [Heq Hb]]].
  - destruct (decide (x = y)).
    + specialize (IHa b l Ha Hb). lia.
    + specialize (IHa (y :: b) l Ha (sublist_cons _ _ _ Hb)). lia.
  - subst l. destruct (decide (x = y)).
    + specialize (IHa b lb (sublist_tail _ _ _ Ha) Hb). simpl. lia.
    + specialize (IHa (y :: b) (y :: lb) Ha (sublist_skip _ _ _ Hb)). lia.
  - destruct (decide (x = y)).
    + specialize (IHa b la Ha (sublist_tail _ _ _ Hb)). simpl. lia.
    + specialize (IHb (x :: la) (sublist_skip _ _ _ Ha) Hb). lia.
  - injection Heq as <- <-. rewrite decide_True by reflexivity.
    specialize (IHa b la Ha Hb). simpl. lia.
Qed.

(** Some common subsequence has [lcs_length] characters. *)
Lemma lcs_length_attained a : forall b,
  exists l, l `sublist_of` a /\ l `sublist_of` b /\
            length l = lcs_length a b.
Proof.
  induction a as [|x a IHa]; intros b.
  { exists []. split; [constructor|]. split; [apply sublist_nil_l|reflexivity]. }
  induction b as [|y b IHb].
  { exists []. split; [apply sublist_nil_l|]. split; [constructor|reflexivity]. }
  rewrite lcs_length_cons. destruct (decide (x = y)) as [<-|Hne].
  - destruct (IHa b) as [l [Hla [Hlb Hlen]]]. exists (x :: l).
    split; [apply sublist_skip, Hla|].
    split; [apply sublist_skip, Hlb|]. simpl. rewrite Hlen. reflexivity.
  - destruct (Nat.max_spec (lcs_length a (y :: b)) (lcs_length (x :: a) b))
      as [[_ ->]|[_ ->]].
    + destruct IHb as [l [Hla [Hlb Hlen]]]. exists l.
      split; [exact Hla|]. split; [apply sublist_cons, Hlb|exact Hlen].
    + destruct (IHa (y :: b)) as [l [Hla [Hlb Hlen]]]. exists l.
      split; [apply sublist_cons, Hla|]. split; [exact Hlb|exact Hlen].
Qed.
End AlignmentFacts.

(** ** Concrete runs over ASCII text *)

Module Scenarios.
Import AsciiText.

Lemma lower_nil : lower [] = [].
Proof. reflexivity. Qed.

Lemma lower_nonempty (s : list ascii) : lower s = [] -> s = [].
Proof. destruct s; [reflexivity|discriminate]. Qed.

(** Scenario A: the phrase occurs in the text in another casing. *)
Example scenario_A :
  map (fun d => d !! "found"%string)
      (check "All PATIENT DATA must be Encrypted at rest"
             ["Patient data must be encrypted"]%string default_threshold)
  = [Some (VBool true)].
Proof. vm_compute. reflexivity. Qed.

(** Scenario C: one rule of two is found, by substring. *)
Example scenario_C :
  map (fun d => d !! "found"%string)
      (check "b only here" ["a"; "b"]%string (9 # 10))
  = [Some (VBool false); Some (VBool true)] /\
  summarize_missing (check "b only here" ["a"; "b"]%string (9 # 10))
  = [VStr (py "a")] /\
  rules_found (report "doc.txt" "b only here" ["a"; "b"]%string) = 1 /\
  rules_missing (report "doc.txt" "b only here" ["a"; "b"]%string) = 1.
Proof. vm_compute. repeat split. Qed.

(** Scenario D: a path that names no file gives no rule and no error. *)
Example scenario_D : load "nowhere.txt" = Ok [].
Proof. reflexivity. Qed.

(** C2, refuted as stated.  For the rule ["ab"] and the text ["ba"] the
    stored similarity is 1, while the longest alignment matches one
    character, which gives 1/2. *)
Lemma similarity_not_alignment_ratio :
  (exists q : Q,
     map (fun d => d !! "similarity"%string) (check "ba" ["ab"]%string (1 # 2))
     = [Some (VFloat q)] /\ (q == 1)%Q) /\
  (alignment_ratio (lower (py "ab")) (lower (py "ba")) == 1 # 2)%Q /\
  ~ reports_similarity lower alignment_ratio (py "ba") [py "ab"] (1 # 2).
Proof.
  split; [|split].
  - eexists. split; [vm_compute; reflexivity|reflexivity].
  - reflexivity.
  - unfold reports_similarity. rewrite check_rules_map. simpl map.
    intros Hall. apply Forall2_cons_1 in Hall as [[q [Hq Heq]] _].
    unfold rule_result in Hq. rewrite match_result_similarity in Hq.
    injection Hq as <-. vm_compute in Heq. discriminate.
Qed.

(** Scenario B, from C4: one rule against the empty text. *)
Lemma scenario_B :
  (1 # 2 <= default_threshold)%Q /\
  map (fun d => (d !! "found"%string, d !! "similarity"%string))
      (check "" ["Access logs retained for six years"]%string
             default_threshold)
  = [(Some (VBool false), Some (VFloat (0 # 34)))] /\
  summarize_missing
    (check "" ["Access logs retained for six years"]%string default_threshold)
  = [VStr (py "Access logs retained for six years")] /\
  compliant (report "doc.txt" "" ["Access logs retained for six years"]%string)
  = false.
Proof.
  assert (1 # 2 <= default_threshold)%Q as Hthr by (vm_compute; discriminate).
  split; [exact Hthr|]. split; [vm_compute; reflexivity|].
  destruct (empty_text_all_missing lower lower_nil lower_nonempty
              (py "doc.txt") [py "Access logs retained for six years"]
              default_threshold Hthr) as [_ Hall].
  destruct Hall as (Hmissing & _ & Hreport).
  - repeat constructor. discriminate.
  - split; [exact Hmissing|]. apply Hreport. discriminate.
Defined.

(** The empty rule against a text, from C10. *)
Lemma empty_rule_found :
  Forall2 (fun rule d =>
             rule = [] ->
             d !! "found"%string = Some (VBool true) /\
             exists q : Q, d !! "similarity"%string = Some (VFloat q) /\
                           (py "b only here" <> [] -> (q == 0)%Q) /\
                           (py "b only here" = [] -> (q == 1)%Q))
          [py ""] (check "b only here" [""%string] (9 # 10)).
Proof.
  exact (empty_rule_always_found lower lower_nil lower_nonempty
           (py "b only here") [py ""] (9 # 10)).
Defined.

(** The rules file of [disk], from C8. *)
Lemma load_rules_txt :
  load "rules.txt"
  = Ok [py "Patient data must be encrypted";
        py "Access logs retained for six years"] /\
  load "nowhere.txt" = Ok [].
Proof.
  destruct (load_rules_stripped_lines is_space LF CR disk (py "rules.txt"))
    as [Hread _].
  destruct (load_rules_stripped_lines is_space LF CR disk (py "nowhere.txt"))
    as [_ [Hmissing _]].
  split.
  - destruct (Hread _ rules_txt eq_refl eq_refl eq_refl)
      as (_ & _ & _ & Hload).
    unfold load. rewrite Hload. vm_compute. reflexivity.
  - apply Hmissing. reflexivity.
Defined.

(** A file that may not be opened and one that does not decode, from C9. *)
Lemma load_locked :
  (PermissionError <> FileNotFoundError /\
   disk (py "locked.txt") = Raise PermissionError) /\
  load "locked.txt" = Raise PermissionError /\
  load "binary.txt" = Raise UnicodeDecodeError.
Proof.
  split; [split; [discriminate|reflexivity]|]. split.
  - apply (load_rules_raises_other_failures is_space LF CR disk
             (py "locked.txt") PermissionError); [discriminate|].
    left. reflexivity.
  - apply (load_rules_raises_other_failures is_space LF CR disk
             (py "binary.txt") UnicodeDecodeError); [discriminate|].
    right. eexists. split; [reflexivity|]. right. split; reflexivity.
Defined.
End Scenarios.

(** * Further properties of [compare.py] *)

Section RatioExtras.
Context {char : Type} `{Countable char}.
Implicit Types a b l : list char.

Lemma shared_chars_comm a b : shared_chars a b = shared_chars b a.
Proof.
  unfold shared_chars. f_equal. f_equal. apply gmultiset_eq. intros c.
  rewrite !multiplicity_intersection. lia.
Qed.

Lemma quick_ratio_comm a b : quick_ratio a b = quick_ratio b a.
Proof.
  rewrite !quick_ratio_shared, (shared_chars_comm a b), (Z.add_comm (len a)).
  reflexivity.
Qed.

Lemma shared_chars_substring a b : substring a b -> shared_chars a b = len a.
Proof.
  intros [before [after ->]]. unfold shared_chars, len.
  rewrite <- (size_list_to_set_disj a). f_equal. f_equal.
  rewrite !list_to_set_disj_app. apply gmultiset_eq. intros c.
  rewrite multiplicity_intersection, !multiplicity_disj_union. lia.
Qed.

Lemma shared_chars_permutation a b : a ≡ₚ b -> shared_chars a b = len a.
Proof.
  intros Hp. unfold shared_chars, len. rewrite <- (size_list_to_set_disj a).
  rewrite <- Hp. f_equal. f_equal. apply gmultiset_eq. intros c.
  rewrite multiplicity_intersection. lia.
Qed.

(** A common subsequence is shared, character by character. *)
Lemma lcs_length_shared a b : Z.of_nat (lcs_length a b) <= shared_chars a b.
Proof.
  destruct (lcs_length_attained a b) as [l [Ha [Hb <-]]].
  apply sublist_submseteq, submseteq_Permutation in Ha as [ka Ha].
  apply sublist_submseteq, submseteq_Permutation in Hb as [kb Hb].
  unfold shared_chars. rewrite <- (size_list_to_set_disj l).
  apply inj_le, gmultiset_subseteq_size. intros c.
  rewrite Ha, Hb, !list_to_set_disj_app, multiplicity_intersection,
    !multiplicity_disj_union.
  lia.
Qed.

Lemma calculate_ratio_mono (m1 m2 length : Z) :
  m1 <= m2 -> 0 < length ->
  (_calculate_ratio m1 length <= _calculate_ratio m2 length)%Q.
Proof.
  intros Hm Hl. rewrite !calculate_ratio_pos by exact Hl.
  unfold Qle. simpl. nia.
Qed.

Lemma len_pos a b : a <> [] \/ b <> [] -> 0 < len a + len b.
Proof.
  unfold len. intros [Hne|Hne]; [destruct a|destruct b];
    try congruence; simpl; lia.
Qed.

Lemma alignment_ratio_calculate a b :
  a <> [] \/ b <> [] ->
  alignment_ratio a b
  = _calculate_ratio (Z.of_nat (lcs_length a b)) (len a + len b).
Proof.
  intros Hne%len_pos. unfold alignment_ratio, _calculate_ratio.
  rewrite decide_False by lia. reflexivity.
Qed.

Lemma alignment_ratio_le_quick_ratio a b :
  (alignment_ratio a b <= quick_ratio a b)%Q.
Proof.
  destruct a as [|x a], b as [|y b].
  - vm_compute. discriminate.
  - rewrite alignment_ratio_calculate, quick_ratio_shared by (right; discriminate).
    apply calculate_ratio_mono;
      [apply lcs_length_shared|apply len_pos; right; discriminate].
  - rewrite alignment_ratio_calculate, quick_ratio_shared by (left; discriminate).
    apply calculate_ratio_mono;
      [apply lcs_length_shared|apply len_pos; left; discriminate].
  - rewrite alignment_ratio_calculate, quick_ratio_shared by (left; discriminate).
    apply calculate_ratio_mono;
      [apply lcs_length_shared|apply len_pos; left; discriminate].
Qed.
End RatioExtras.

Section CheckerExtras.
Context {char : Type} `{Countable char}.
Variable lower : list char -> list char.
Implicit Types text rule : list char.
Implicit Types rules : list (list char).

Lemma rule_result_found text_lower (threshold : Q) rule :
  rule_result lower text_lower threshold rule !! "found"%string
  = Some (VBool (str_in (lower rule) text_lower
                 || Qle_bool threshold (quick_ratio (lower rule) text_lower))).
Proof. reflexivity. Qed.

Lemma missing_rule_result text_lower (threshold : Q) rule :
  missing_rule (rule_result lower text_lower threshold rule)
  = if str_in (lower rule) text_lower
       || Qle_bool threshold (quick_ratio (lower rule) text_lower)
    then None else Some (VStr rule).
Proof.
  unfold missing_rule. rewrite rule_result_found.
  destruct (_ || _); reflexivity.
Qed.

Lemma Qle_bool_trans_true (t1 t2 q : Q) :
  (t1 <= t2)%Q -> Qle_bool t2 q = true -> Qle_bool t1 q = true.
Proof.
  rewrite !Qle_bool_iff. intros H12 H2. exact (Qle_trans _ _ _ H12 H2).
Qed.

(** The score does not depend on which string is the rule and which the
    text. *)
Theorem similarity_symmetric text rule (t1 t2 : Q) :
  map (fun d => d !! "similarity"%string) (check_rules lower text [rule] t1)
  = map (fun d => d !! "similarity"%string) (check_rules lower rule [text] t2).
Proof.
  rewrite !check_rules_map. simpl. unfold rule_result.
  rewrite !match_result_similarity, quick_ratio_comm. reflexivity.
Qed.

(** The rules are checked one by one: a concatenated rule list gives the
    concatenated results. *)
Theorem check_rules_app text rules1 rules2 (threshold : Q) :
  check_rules lower text (rules1 ++ rules2) threshold
  = check_rules lower text rules1 threshold
    ++ check_rules lower text rules2 threshold.
Proof. rewrite !check_rules_map. apply map_app. Qed.

(** A rule found as a substring of a non-empty text scores twice its
    length over the two lengths together. *)
Theorem substring_similarity text rules (threshold : Q) :
  Forall2 (fun rule d =>
             substring (lower rule) (lower text) -> lower text <> [] ->
             exists q : Q,
               d !! "similarity"%string = Some (VFloat q) /\
               (q == (2 * len (lower rule))
                     # Z.to_pos (len (lower rule) + len (lower text)))%Q)
          rules (check_rules lower text rules threshold).
Proof.
  apply check_rules_Forall2. intros rule Hsub Htext. eexists.
  split; [apply match_result_similarity|].
  rewrite quick_ratio_shared, (shared_chars_substring _ _ Hsub).
  apply calculate_ratio_pos, len_pos. right. exact Htext.
Qed.

(** A rule whose lowercased characters are those of the lowercased text
    in another order scores 1, and is found at any threshold up to 1. *)
Theorem anagram_found text rules (threshold : Q) :
  Forall2 (fun rule d =>
             lower rule ≡ₚ lower text ->
             exists q : Q,
               d !! "similarity"%string = Some (VFloat q) /\ (q == 1)%Q /\
               ((threshold <= 1)%Q ->
                d !! "found"%string = Some (VBool true)))
          rules (check_rules lower text rules threshold).
Proof.
  apply check_rules_Forall2. intros rule Hperm.
  assert (quick_ratio (lower rule) (lower text) == 1)%Q as Hq.
  { rewrite quick_ratio_shared, (shared_chars_permutation _ _ Hperm).
    unfold len. rewrite <- (Permutation_length Hperm).
    destruct (lower rule) as [|c r]; [reflexivity|].
    assert (0 < Z.of_nat (length (c :: r))) as Hpos by (simpl; lia).
    revert Hpos. generalize (Z.of_nat (length (c :: r))). intros n Hpos.
    rewrite calculate_ratio_pos by lia.
    unfold Qeq. cbn [Qnum Qden]. rewrite Z2Pos.id by lia. lia. }
  eexists. split; [apply match_result_similarity|]. split; [exact Hq|].
  intros Hthr. rewrite rule_result_found. do 2 f_equal.
  apply orb_true_iff. right. apply Qle_bool_iff. rewrite Hq. exact Hthr.
Qed.

(** The stored score is never below the alignment measure. *)
Theorem similarity_bounds_alignment text rules (threshold : Q) :
  Forall2 (fun rule d =>
             exists q : Q,
               d !! "similarity"%string = Some (VFloat q) /\
               (alignment_ratio (lower rule) (lower text) <= q)%Q)
          rules (check_rules lower text rules threshold).
Proof.
  apply check_rules_Forall2. intros rule. eexists.
  split; [apply match_result_similarity|apply alignment_ratio_le_quick_ratio].
Qed.

(** Lowering the threshold never loses a rule: what is found at the
    higher threshold is found at the lower one, and the rules missing at
    the lower threshold are among those missing at the higher one. *)
Theorem threshold_monotone text rules (t1 t2 : Q) :
  (t1 <= t2)%Q ->
  Forall2 (fun d1 d2 =>
             d2 !! "found"%string = Some (VBool true) ->
             d1 !! "found"%string = Some (VBool true))
          (check_rules lower text rules t1) (check_rules lower text rules t2) /\
  summarize_missing (check_rules lower text rules t1)
  `sublist_of` summarize_missing (check_rules lower text rules t2).
Proof.
  intros H12. split.
  - rewrite !check_rules_map.
    induction rules as [|rule rules IH]; simpl; constructor; [|exact IH].
    rewrite !rule_result_found. intros [= Hfound]. do 2 f_equal.
    apply orb_true_iff in Hfound as [Hin|Hle]; apply orb_true_iff.
    + left. exact Hin.
    + right. exact (Qle_bool_trans_true _ _ _ H12 Hle).
  - rewrite !summarize_missing_omap by apply check_rules_well_formed.
    rewrite !check_rules_map.
    induction rules as [|rule rules IH]; [constructor|].
    cbn [map omap list_omap]. rewrite !missing_rule_result.
    destruct (str_in (lower rule) (lower text)); simpl; [exact IH|].
    destruct (Qle_bool t2 _) eqn:H2.
    + rewrite (Qle_bool_trans_true _ _ _ H12 H2). exact IH.
    + destruct (Qle_bool t1 _).
      * apply sublist_cons, IH.
      * apply sublist_skip, IH.
Qed.

(** With a threshold of 0 or less every rule is found. *)
Theorem nonpositive_threshold_finds_all text rules (threshold : Q) :
  (threshold <= 0)%Q ->
  Forall (fun d => d !! "found"%string = Some (VBool true))
         (check_rules lower text rules threshold) /\
  summarize_missing (check_rules lower text rules threshold) = [].
Proof.
  intros Hthr.
  assert (forall rule,
            str_in (lower rule) (lower text)
            || Qle_bool threshold (quick_ratio (lower rule) (lower text))
            = true) as Hfound.
  { intros rule. apply orb_true_iff. right. apply Qle_bool_iff.
    exact (Qle_trans _ _ _ Hthr (proj1 (quick_ratio_range _ _))). }
  split.
  - rewrite check_rules_map. apply Forall_forall. intros d Hd.
    apply list_elem_of_In, in_map_iff in Hd as [rule [<- _]].
    rewrite rule_result_found, Hfound. reflexivity.
  - rewrite summarize_missing_omap by apply check_rules_well_formed.
    rewrite check_rules_map.
    induction rules as [|rule rules IH]; [reflexivity|].
    cbn [map omap list_omap]. rewrite missing_rule_result, Hfound. exact IH.
Qed.

(** With a threshold above 1 only substring matches are found. *)
Theorem high_threshold_substring_only text rules (threshold : Q) :
  (1 < threshold)%Q ->
  Forall2 (fun rule d =>
             exists found : bool,
               d !! "found"%string = Some (VBool found) /\
               (found = true <-> substring (lower rule) (lower text)))
          rules (check_rules lower text rules threshold).
Proof.
  intros Hthr. apply check_rules_Forall2. intros rule. eexists.
  split; [apply rule_result_found|].
  rewrite orb_true_iff, str_in_spec, Qle_bool_iff. split; [|tauto].
  intros [Hsub|Hle]; [exact Hsub|]. exfalso.
  pose proof (proj2 (quick_ratio_range (lower rule) (lower text))) as Hq.
  apply (Qlt_irrefl 1).
  exact (Qlt_le_trans _ _ _ Hthr (Qle_trans _ _ _ Hle Hq)).
Qed.
End CheckerExtras.

(** * Further properties of [summarize_missing] and of the report *)

Section ReportExtras.
Context {char : Type} `{Countable char}.
Variable lower : list char -> list char.
Implicit Types text rule name : list char.
Implicit Types rules : list (list char).
Implicit Types results : list (gmap string (@pyval char)).

Lemma flat_map_filter_map {A B : Type} (p : A -> bool) (f : A -> B)
    (l : list A) :
  flat_map (fun x => if p x then [f x] else []) l = map f (List.filter p l).
Proof.
  induction l as [|x l IH]; simpl; [reflexivity|].
  destruct (p x); simpl; rewrite IH; reflexivity.
Qed.

Lemma filter_split_length {A : Type} (p : A -> bool) (l : list A) :
  (length (List.filter p l) + length (List.filter (fun x => negb (p x)) l)
   = length l)%nat.
Proof.
  induction l as [|x l IH]; simpl; [reflexivity|].
  destruct (p x); simpl; lia.
Qed.

Lemma summarize_missing_flat_map results :
  summarize_missing results
  = map (fun d => default (VStr []) (d !! "rule"%string))
        (List.filter (fun d => negb (get_truthy d "found")) results).
Proof.
  unfold summarize_missing, sm_run. rewrite sm_fold. simpl.
  apply (flat_map_filter_map (fun d => negb (get_truthy d "found"))).
Qed.

(** Whatever dictionaries it is given, [summarize_missing] lists, in
    order, one text for each whose ["found"] entry is absent or false as
    a truth value: its ["rule"] entry, or the empty string when it has
    none. *)
Theorem summarize_missing_any_results results :
  summarize_missing results
  = map (fun d => default (VStr []) (d !! "rule"%string))
        (List.filter (fun d => negb (get_truthy d "found")) results) /\
  (forall d, d !! "found"%string = None ->
             d !! "rule"%string = None ->
             summarize_missing (results ++ [d])
             = summarize_missing results ++ [VStr []]).
Proof.
  split; [apply summarize_missing_flat_map|].
  intros d Hfound Hrule. rewrite !summarize_missing_flat_map.
  rewrite List.filter_app, map_app. simpl. unfold get_truthy.
  rewrite Hfound. simpl. rewrite Hrule. reflexivity.
Qed.

Lemma get_truthy_rule_result text_lower (threshold : Q) rule :
  get_truthy (rule_result lower text_lower threshold rule) "found"
  = str_in (lower rule) text_lower
    || Qle_bool threshold (quick_ratio (lower rule) text_lower).
Proof. reflexivity. Qed.

(** The counts of the report add up: there is one detail per rule,
    [rules_missing] counts the details that are not found,
    [rules_found] those that are, and both lie between 0 and
    [total_rules]. *)
Theorem report_counts name text rules :
  total_rules (compliance_report lower name text rules)
  = len (details (compliance_report lower name text rules)) /\
  rules_missing (compliance_report lower name text rules)
  = len (List.filter (fun d => negb (get_truthy d "found"))
           (details (compliance_report lower name text rules))) /\
  rules_found (compliance_report lower name text rules)
  = len (List.filter (fun d => get_truthy d "found")
           (details (compliance_report lower name text rules))) /\
  rules_found (compliance_report lower name text rules)
  + rules_missing (compliance_report lower name text rules)
  = total_rules (compliance_report lower name text rules) /\
  0 <= rules_found (compliance_report lower name text rules)
    <= total_rules (compliance_report lower name text rules).
Proof.
  cbn [compliance_report total_rules rules_missing rules_found details].
  unfold len. rewrite summarize_missing_flat_map, length_map.
  rewrite <- (length_map (rule_result lower (lower text) default_threshold)
                rules), <- check_rules_map.
  generalize (check_rules lower text rules default_threshold).
  intros results.
  assert (length (List.filter (fun d => get_truthy d "found") results)
          + length (List.filter (fun d => negb (get_truthy d "found")) results)
          = length results)%nat as Hsplit
    by exact (filter_split_length (fun d => get_truthy d "found") results).
  revert Hsplit.
  generalize (length (List.filter (fun d => get_truthy d "found") results)).
  generalize
    (length (List.filter (fun d => negb (get_truthy d "found")) results)).
  generalize (length results).
  intros total missing found Hsplit.
  split; [reflexivity|]. split; [reflexivity|].
  split; [|split; [|split]].
  - apply (f_equal Z.of_nat) in Hsplit. rewrite Nat2Z.inj_add in Hsplit.
    rewrite <- Hsplit. apply Z.add_simpl_r.
  - apply Z.sub_add.
  - apply Zle_minus_le_0, inj_le. rewrite <- Hsplit. apply Nat.le_add_l.
  - apply Z.le_sub_nonneg, Nat2Z.is_nonneg.
Qed.

(** The report is compliant exactly when every rule is found. *)
Theorem report_compliant_all_found name text rules :
  compliant (compliance_report lower name text rules) = true
  <-> Forall (fun d => d !! "found"%string = Some (VBool true))
             (details (compliance_report lower name text rules)).
Proof.
  cbn [compliance_report compliant details].
  rewrite bool_decide_eq_true, summarize_missing_flat_map, check_rules_map.
  unfold len. rewrite length_map.
  induction rules as [|rule rules IH]; simpl.
  - split; [constructor|reflexivity].
  - rewrite get_truthy_rule_result.
    destruct (str_in _ _ || Qle_bool _ _) eqn:Hfound; simpl.
    + rewrite IH. split.
      * intros Hall. constructor; [|exact Hall].
        rewrite rule_result_found, Hfound. reflexivity.
      * intros Hall. inversion Hall. assumption.
    + split; [lia|]. intros Hall. inversion Hall as [|d l Hd _].
      rewrite rule_result_found, Hfound in Hd. discriminate.
Qed.
End ReportExtras.

(** * Further properties of [load_rules] *)

Section LoadExtras.
Context {char : Type} `{Countable char}.
Variable is_space : char -> bool.
Variables LF CR : char.
Implicit Types s line path content : list char.
Implicit Types fs : @filesystem char.

Lemma load_rules_ok_content fs path (rules : list (list char)) :
  load_rules is_space LF CR fs path = Ok rules ->
  rules = [] \/
  exists content,
    rules = stripped_lines is_space
              (split_lines LF [] (universal_newlines LF CR content)).
Proof.
  unfold load_rules, load_rules_try, readlines, try_except.
  destruct (fs path) as [f|e]; simpl.
  - destruct (f_read f) as [content|e]; simpl;
      destruct (f_close f) as [u|e']; simpl.
    + intros [= <-]. right. eexists. reflexivity.
    + destruct (is_FileNotFoundError e'); intros [= <-]. left. reflexivity.
    + destruct (is_FileNotFoundError e); intros [= <-]. left. reflexivity.
    + destruct (is_FileNotFoundError e'); intros [= <-]. left. reflexivity.
  - destruct (is_FileNotFoundError e); intros [= <-]. left. reflexivity.
Qed.

Lemma try_except_never_caught {A : Type} (body handler : result A)
    (catches : exn -> bool) (e : exn) :
  catches e = true -> (forall e', handler <> Raise e') ->
  try_except body catches handler <> Raise e.
Proof.
  intros Hc Hh. unfold try_except. destruct body as [a|e0]; [discriminate|].
  destruct (catches e0) eqn:He0; [apply Hh|].
  intros [= ->]. congruence.
Qed.

(** [load_rules] never raises [FileNotFoundError]: it returns a list, or
    raises another exception; and when opening the file, reading it or
    closing it raises [FileNotFoundError], the list is empty. *)
Theorem load_rules_file_not_found fs path :
  ((exists rules, load_rules is_space LF CR fs path = Ok rules) \/
   (exists e, load_rules is_space LF CR fs path = Raise e /\
              e <> FileNotFoundError)) /\
  (load_rules_try is_space LF CR fs path = Raise FileNotFoundError ->
   load_rules is_space LF CR fs path = Ok []) /\
  (forall f : file,
     fs path = Ok f ->
     f_close f = Raise FileNotFoundError \/
     (f_close f = Ok tt /\ f_read f = Raise FileNotFoundError) ->
     load_rules is_space LF CR fs path = Ok []).
Proof.
  split; [|split].
  - destruct (load_rules is_space LF CR fs path) as [rules|e] eqn:Hload.
    + left. eauto.
    + right. exists e. split; [reflexivity|]. intros ->. revert Hload.
      apply try_except_never_caught; [reflexivity|discriminate].
  - intros Htry. unfold load_rules. rewrite Htry. reflexivity.
  - intros f Hopen Hf. unfold load_rules, load_rules_try, readlines.
    rewrite Hopen. simpl.
    destruct (f_read f) as [content|e1] eqn:Hr; simpl;
      destruct (f_close f) as [u|e2] eqn:Hc; simpl;
      destruct Hf as [Hf|[Hf1 Hf2]]; try congruence.
    + injection Hf as ->. reflexivity.
    + injection Hf2 as ->. reflexivity.
    + injection Hf as ->. reflexivity.
Qed.

Lemma universal_newlines_bounded (P : char -> Prop) :
  P LF -> forall n s, (length s <= n)%nat ->
  Forall (fun c => c <> CR -> P c) s ->
  Forall P (universal_newlines LF CR s).
Proof.
  intros HLF n. induction n as [|n IH]; intros s Hlen Hs.
  { destruct s; [constructor|simpl in Hlen; lia]. }
  destruct s as [|c s]; [constructor|]. simpl in Hlen. simpl.
  inversion Hs as [|? ? Hc Hs']; subst.
  destruct (decide (c = CR)) as [->|Hne].
  - constructor; [exact HLF|]. destruct s as [|d s]; [constructor|].
    inversion Hs' as [|? ? Hd Hs'']; subst. simpl in Hlen.
    destruct (decide (d = LF)).
    + apply IH; [lia|exact Hs''].
    + apply IH; [simpl; lia|exact Hs'].
  - constructor; [apply Hc, Hne|]. apply IH; [lia|exact Hs'].
Qed.

Lemma universal_newlines_no_CR s :
  CR <> LF -> CR ∉ universal_newlines LF CR s.
Proof.
  intros Hne Hin.
  assert (Forall (fun c => c <> CR) (universal_newlines LF CR s)) as Hall.
  { apply (universal_newlines_bounded (fun c => c <> CR) (not_eq_sym Hne)
             (length s) s (Nat.le_refl _)).
    apply Forall_forall. intros c _ Hc. exact Hc. }
  rewrite Forall_forall in Hall. exact (Hall CR Hin eq_refl).
Qed.

Lemma last_occurrence (x : char) (body before after : list char) :
  x ∉ body -> before ++ x :: after = body ++ [x] -> after = [].
Proof.
  revert body. induction before as [|p before IH]; intros body Hx Heq.
  - destruct body as [|y body]; simpl in Heq.
    + injection Heq as ->. reflexivity.
    + injection Heq as -> _. exfalso. apply Hx. constructor.
  - destruct body as [|y body]; simpl in Heq.
    + injection Heq as _ Heq. destruct before; discriminate.
    + injection Heq as -> Heq. apply (IH body); [|exact Heq].
      intros Hin. apply Hx. constructor. exact Hin.
Qed.

Lemma stripped_line_no_LF (l : list char) :
  is_space LF = true ->
  (exists body, (LF ∉ body) /\ (l = body ++ [LF] \/ (l = body /\ body <> []))) ->
  LF ∉ strip is_space l.
Proof.
  intros HLF [body [Hbody Hl]] Hin.
  destruct (strip_trimmed is_space l)
    as [[leading [trailing [Hcut _]]] [_ Hend]].
  apply list_elem_of_split in Hin as [r1 [r2 Hrule]].
  destruct Hl as [Hl|[Hl _]].
  - assert (r2 ++ trailing = []) as Hnil.
    { apply (last_occurrence LF body (leading ++ r1)); [exact Hbody|].
      rewrite <- Hl, Hcut, Hrule, <- !app_assoc. reflexivity. }
    apply app_eq_nil in Hnil as [-> _].
    rewrite Hrule, reverse_snoc in Hend. simpl in Hend. congruence.
  - apply Hbody. rewrite <- Hl, Hcut, Hrule.
    rewrite !elem_of_app. right. left. right. constructor.
Qed.

(** Every rule is a single line: with the line feed among the white
    space of [strip] and distinct from the carriage return, no returned
    rule holds a line feed or a carriage return. *)
Theorem load_rules_single_lines fs path (rules : list (list char)) :
  is_space LF = true -> CR <> LF ->
  load_rules is_space LF CR fs path = Ok rules ->
  Forall (fun rule => (LF ∉ rule) /\ (CR ∉ rule)) rules.
Proof.
  intros HLF Hne Hload.
  destruct (load_rules_ok_content fs path rules Hload) as [->|[content ->]];
    [constructor|].
  set (text := universal_newlines LF CR content).
  pose proof (split_lines_shape LF text [] (not_elem_of_nil LF)) as Hshape.
  pose proof (split_lines_concat LF text []) as Hconcat. simpl in Hconcat.
  rewrite stripped_lines_filter. apply Forall_forall. intros rule Hrule.
  apply list_elem_of_In, filter_In in Hrule as [Hin _].
  apply in_map_iff in Hin as [l [<- Hl]]. apply list_elem_of_In in Hl.
  split.
  - apply stripped_line_no_LF; [exact HLF|].
    rewrite Forall_forall in Hshape. exact (Hshape l Hl).
  - intros HCR. apply (universal_newlines_no_CR content Hne).
    fold text. rewrite <- Hconcat. apply list_elem_of_In, in_concat.
    exists l. split; [apply list_elem_of_In, Hl|]. apply list_elem_of_In.
    destruct (strip_trimmed is_space l) as [[leading [trailing [Hcut _]]] _].
    rewrite Hcut, !elem_of_app. right. left. exact HCR.
Qed.
End LoadExtras.

Section BlankFile.
Context {char : Type} `{Countable char}.
Variable lower : list char -> list char.
Variable is_space : char -> bool.
Variables LF CR : char.
Implicit Types s line path content name text : list char.
Implicit Types fs : @filesystem char.

Lemma lstrip_all_space s :
  Forall (fun c => is_space c = true) s -> lstrip is_space s = [].
Proof.
  induction 1 as [|c s Hc _ IH]; simpl; [reflexivity|].
  rewrite Hc. exact IH.
Qed.

Lemma strip_all_space s :
  Forall (fun c => is_space c = true) s -> strip is_space s = [].
Proof. intros Hs. unfold strip. rewrite lstrip_all_space by exact Hs. reflexivity. Qed.

Lemma split_lines_all_space s : forall line,
  Forall (fun c => is_space c = true) line ->
  Forall (fun c => is_space c = true) s ->
  Forall (Forall (fun c => is_space c = true)) (split_lines LF line s).
Proof.
  induction s as [|c s IH]; intros line Hline Hs; simpl.
  - destruct line; simpl; repeat constructor;
      inversion Hline; assumption.
  - inversion Hs as [|? ? Hc Hs']; subst.
    assert (Forall (fun c => is_space c = true) (line ++ [c])) as Hext
      by (apply Forall_app; split; [exact Hline|repeat constructor; exact Hc]).
    destruct (decide (c = LF)).
    + constructor; [exact Hext|]. apply IH; [constructor|exact Hs'].
    + apply IH; [exact Hext|exact Hs'].
Qed.

Lemma stripped_lines_all_space (lines : list (list char)) :
  Forall (Forall (fun c => is_space c = true)) lines ->
  stripped_lines is_space lines = [].
Proof.
  unfold stripped_lines. induction 1 as [|l lines Hl _ IH]; simpl.
  - reflexivity.
  - rewrite (strip_all_space l Hl). exact IH.
Qed.

(** A rules file that holds nothing but white space, or nothing at all,
    gives no rule. *)
Theorem load_rules_blank_file fs path (f : file) content :
  is_space LF = true ->
  Forall (fun c => is_space c = true) content ->
  fs path = Ok f -> f_read f = Ok content -> f_close f = Ok tt ->
  load_rules is_space LF CR fs path = Ok [].
Proof.
  intros HLF Hblank Hopen Hread Hclose. unfold load_rules.
  rewrite (load_rules_try_ok is_space LF CR fs path f content
             Hopen Hread Hclose).
  simpl. f_equal. apply stripped_lines_all_space.
  apply split_lines_all_space; [constructor|].
  apply (universal_newlines_bounded LF CR _ HLF (length content) content
           (Nat.le_refl _)).
  apply Forall_forall. intros c Hc _.
  rewrite Forall_forall in Hblank. exact (Hblank c Hc).
Qed.

(** When the rules file cannot be opened: if it is not found, the report
    of any document is compliant, with no rule counted; for any other
    failure no report is made and the failure is raised. *)
Theorem upload_report_rules_unavailable fs path name text (e : exn) :
  fs path = Raise e ->
  upload_report lower is_space LF CR fs path name text
  = (if is_FileNotFoundError e
     then Ok (compliance_report lower name text [])
     else Raise e) /\
  compliant (compliance_report lower name text []) = true /\
  total_rules (compliance_report lower name text []) = 0 /\
  details (compliance_report lower name text []) = [].
Proof.
  intros Hopen. split; [|repeat split].
  unfold upload_report, load_rules, load_rules_try. rewrite Hopen. simpl.
  destruct (is_FileNotFoundError e); reflexivity.
Qed.
End BlankFile.

(** * The upload endpoint of [app.py]

    What the endpoint takes from outside the repository is a parameter:
    the characters denoted by the string literals of the source ([lit]),
    [os.path.splitext], PyMuPDF ([open_pdf]: the pages of a document, each
    giving its text or failing), [bytes.decode] and the environment. *)

Section App.
Context {char : Type} `{Countable char}.
Variable lower : list char -> list char.
Variable is_space : char -> bool.
Variables LF CR : char.
Variable lit : string -> list char.
Variable splitext : list char -> list char * list char.
Variables byte pyexc : Type.
Variable open_pdf : list byte -> pyexc + list (pyexc + list char).
Variable decode_ignore : list byte -> pyexc + list char.
Variable environ : gmap string (list char).
Variable default_rules_path : list char.

(** What a request ends in: a JSON response, an [HTTPException] with its
    status code and detail (a fixed text, followed by the text of the
    exception it reports, if any), or an exception nothing catches. *)
Inductive outcome (A : Type) : Type :=
| Response (content : A)
| HTTPException (status_code : Z) (detail : string) (cause : option pyexc)
| Uncaught (e : exn).

Arguments Response {A} content.
Arguments HTTPException {A} status_code detail cause.
Arguments Uncaught {A} e.

(** [text += page.get_text()] for each page, stopping at a failure. *)
Definition extract_step (text : pyexc + list char)
    (page : pyexc + list char) : pyexc + list char :=
  match text, page with
  | inl exc, _ => inl exc
  | inr text, inl exc => inl exc
  | inr text, inr page_text => inr (text ++ page_text)
  end.

Definition extract_pdf (file_bytes : list byte) : pyexc + list char :=
  match open_pdf file_bytes with
  | inl exc => inl exc
  | inr doc => foldl extract_step (inr []) doc
  end.

(** [os.environ.get("REGIMED_RULES_FILE", <rules.txt beside the module>)] *)
Definition rules_path : list char :=
  default default_rules_path (environ !! "REGIMED_RULES_FILE"%string).

Definition get_rules (fs : @filesystem char) : result (list (list char)) :=
  load_rules is_space LF CR fs rules_path.

Definition supported (extension : list char) : bool :=
  bool_decide (extension = lit ".pdf" \/ extension = lit ".txt").

Definition upload_file (fs : @filesystem char)
    (file_filename : option (list char)) (file_bytes : list byte)
    : outcome (@ComplianceReport char) :=
  let filename := default [] file_filename in
  let extension := lower (splitext filename).2 in
  if negb (supported extension) then
    HTTPException 400 "Only .pdf and .txt files are supported" None
  else
    match file_bytes with
    | [] => HTTPException 400 "Uploaded file is empty" None
    | _ :: _ =>
        let extracted :=
          if decide (extension = lit ".pdf") then
            match extract_pdf file_bytes with
            | inl exc => inl ("Could not parse PDF: "%string, exc)
            | inr text => inr text
            end
          else
            match decode_ignore file_bytes with
            | inl exc => inl ("Could not read text file: "%string, exc)
            | inr text => inr text
            end in
        match extracted with
        | inl (detail, exc) => HTTPException 400 detail (Some exc)
        | inr text =>
            match upload_report lower is_space LF CR fs rules_path
                    filename text with
            | Ok response => Response response
            | Raise e => Uncaught e
            end
        end
    end.
End App.

Arguments Response {pyexc A} content.
Arguments HTTPException {pyexc A} status_code detail cause.
Arguments Uncaught {pyexc A} e.

Section AppFacts.
Context {char : Type} `{Countable char}.
Variable lower : list char -> list char.
Variable is_space : char -> bool.
Variables LF CR : char.
Variable lit : string -> list char.
Variable splitext : list char -> list char * list char.
Variables byte pyexc : Type.
Variable open_pdf : list byte -> pyexc + list (pyexc + list char).
Variable decode_ignore : list byte -> pyexc + list char.
Variable environ : gmap string (list char).
Variable default_rules_path : list char.
Implicit Types fs : @filesystem char.
Implicit Types file_bytes : list byte.
Implicit Types pages : list (list char).

Local Abbreviation upload :=
  (upload_file lower is_space LF CR lit splitext byte pyexc open_pdf
     decode_ignore environ default_rules_path).
Local Abbreviation rules_of :=
  (get_rules is_space LF CR environ default_rules_path).
Local Abbreviation extension_of name := (lower (splitext (default [] name)).2).

Lemma extract_fold_ok pages : forall text : list char,
  foldl (extract_step pyexc) (inr text) (map inr pages)
  = inr (text ++ concat pages).
Proof.
  induction pages as [|page pages IH]; intros text; simpl.
  - rewrite app_nil_r. reflexivity.
  - rewrite IH, app_assoc. reflexivity.
Qed.

Lemma extract_fold_failed (doc : list (pyexc + list char)) (exc : pyexc) :
  foldl (extract_step pyexc) (inl exc) doc = inl exc.
Proof. induction doc as [|page doc IH]; simpl; [reflexivity|exact IH]. Qed.

(** [extract_pdf] returns the texts of the pages, joined in page order;
    it fails with the failure of opening the document, or of the first
    page that gives no text. *)
Theorem extract_pdf_pages file_bytes :
  (forall pages,
     open_pdf file_bytes = inr (map inr pages) ->
     extract_pdf byte pyexc open_pdf file_bytes = inr (concat pages)) /\
  (forall pages exc rest,
     open_pdf file_bytes = inr (map inr pages ++ inl exc :: rest) ->
     extract_pdf byte pyexc open_pdf file_bytes = inl exc) /\
  (forall exc,
     open_pdf file_bytes = inl exc ->
     extract_pdf byte pyexc open_pdf file_bytes = inl exc).
Proof.
  unfold extract_pdf. split; [|split].
  - intros pages ->. apply (extract_fold_ok pages []).
  - intros pages exc rest ->.
    rewrite foldl_app, (extract_fold_ok pages []). simpl.
    apply extract_fold_failed.
  - intros exc ->. reflexivity.
Qed.

(** What an upload can end in.  A file of another type than [.pdf] or
    [.txt] is refused before anything else is looked at, and an empty one
    of these types next; every refusal has status 400; a response is the
    report for the rules that [get_rules] returns; and the only exception
    that escapes is one raised by loading the rules, which is never
    [FileNotFoundError]. *)
Theorem upload_file_outcomes fs (name : option (list char)) file_bytes :
  (supported lit (extension_of name) = false ->
   upload fs name file_bytes
   = HTTPException 400 "Only .pdf and .txt files are supported" None) /\
  (supported lit (extension_of name) = true -> file_bytes = [] ->
   upload fs name file_bytes
   = HTTPException 400 "Uploaded file is empty" None) /\
  match upload fs name file_bytes with
  | Response response =>
      supported lit (extension_of name) = true /\ file_bytes <> [] /\
      exists rules text,
        rules_of fs = Ok rules /\
        response = compliance_report lower (default [] name) text rules
  | HTTPException status_code _ _ => status_code = 400
  | Uncaught e => e <> FileNotFoundError /\ rules_of fs = Raise e
  end.
Proof.
  unfold upload_file, get_rules, upload_report.
  destruct (supported lit (extension_of name)) eqn:Hsup; simpl.
  2: { split; [reflexivity|]. split; [discriminate|reflexivity]. }
  split; [discriminate|]. split; [intros _ ->; reflexivity|].
  destruct file_bytes as [|b file_bytes]; [reflexivity|].
  set (extracted := if decide (extension_of name = lit ".pdf") then _ else _).
  destruct extracted as [[detail exc]|text]; [reflexivity|].
  destruct (load_rules is_space LF CR fs _) as [rules|e] eqn:Hload; simpl.
  - split; [reflexivity|]. split; [discriminate|]. eauto.
  - split; [|reflexivity]. intros ->. revert Hload.
    apply try_except_never_caught; [reflexivity|discriminate].
Qed.

Hypothesis lower_nil : lower [] = [].
Hypothesis lower_nonempty : forall s, lower s = [] -> s = [].

(** A PDF whose pages give no text (a scan, or no page at all) is
    reported with every rule missing; it is not compliant as soon as
    there is a rule. *)
Theorem upload_pdf_without_text fs (name : option (list char)) file_bytes
    (doc : list (pyexc + list char)) (rules : list (list char)) :
  extension_of name = lit ".pdf" ->
  file_bytes <> [] ->
  open_pdf file_bytes = inr doc ->
  Forall (fun page => page = inr []) doc ->
  rules_of fs = Ok rules ->
  exists response,
    upload fs name file_bytes = Response response /\
    missing_rules response = map VStr rules /\
    rules_found response = 0 /\
    rules_missing response = total_rules response /\
    (rules <> [] -> compliant response = false).
Proof.
  intros Hext Hbytes Hopen Hdoc Hrules.
  assert (extract_pdf byte pyexc open_pdf file_bytes = inr []) as Htext.
  { unfold extract_pdf. rewrite Hopen. clear Hopen.
    induction Hdoc as [|page doc -> _ IH]; [reflexivity|exact IH]. }
  assert (Forall (fun rule : list char => rule <> []) rules) as Hne.
  { destruct (load_rules_ok_cases is_space LF CR fs _ rules Hrules)
      as [->|[lines ->]]; [constructor|].
    eapply Forall_impl; [apply stripped_lines_rules|].
    intros rule [Hrule _]. exact Hrule. }
  assert (summarize_missing (check_rules lower [] rules default_threshold)
          = map VStr rules) as Hmissing
    by (apply empty_text_missing; [assumption..|apply Qle_refl]).
  exists (compliance_report lower (default [] name) [] rules).
  split; [|split; [|split; [|split]]].
  - unfold upload_file, supported, upload_report.
    unfold get_rules in Hrules. rewrite Hext.
    rewrite bool_decide_eq_true_2 by (left; reflexivity). simpl.
    destruct file_bytes as [|b file_bytes]; [congruence|].
    rewrite decide_True by reflexivity. rewrite Htext, Hrules. reflexivity.
  - exact Hmissing.
  - cbn [compliance_report rules_found]. rewrite Hmissing.
    unfold len. rewrite length_map. lia.
  - cbn [compliance_report rules_missing total_rules]. rewrite Hmissing.
    unfold len. rewrite length_map. reflexivity.
  - intros Hrule. cbn [compliance_report compliant]. rewrite Hmissing.
    apply bool_decide_eq_false. unfold len. rewrite length_map.
    destruct rules; [congruence|simpl; lia].
Qed.
End AppFacts.

(** * [scraper.py]

    The HTTP client ([http_get]: a response or an exception) and the HTML
    parser ([get_text]) are parameters; [SP] is the space character. *)

Section Scraper.
Context {char : Type} `{Countable char}.
Variable is_space : char -> bool.
Variable SP : char.
Variable lit : string -> list char.
Variable pyexc : Type.
Variable get_text : list char -> list char.

Record response : Type := HttpResponse {
  status_code : Z;
  response_text : list char
}.

Variable http_get : list char -> pyexc + response.

Definition HIPAA_URLS : list (list char) :=
  [lit "https://www.hhs.gov/hipaa/for-professionals/privacy/index.html";
   lit "https://www.hhs.gov/hipaa/for-professionals/security/guidance/index.html"].

(** [response.raise_for_status()] raises for the codes 400 to 599. *)
Definition is_error_status (r : response) : bool :=
  (400 <=? status_code r) && (status_code r <? 600).

(** Any exception is logged and turned into [None]. *)
Definition fetch_page (url : list char) : option (list char) :=
  match http_get url with
  | inl _ => None
  | inr r => if is_error_status r then None else Some (response_text r)
  end.

(** [s.split()]: the maximal runs of characters that are not white
    space; [word] is the run being read. *)
Fixpoint split_words (word s : list char) : list (list char) :=
  match s with
  | [] => if str_truthy word then [word] else []
  | c :: s' =>
      if is_space c then
        if str_truthy word then word :: split_words [] s'
        else split_words [] s'
      else split_words (word ++ [c]) s'
  end.

Definition split (s : list char) : list (list char) := split_words [] s.

(** [sep.join(words)] *)
Fixpoint join (sep : list char) (words : list (list char)) : list char :=
  match words with
  | [] => []
  | word :: rest =>
      match rest with
      | [] => word
      | _ :: _ => word ++ sep ++ join sep rest
      end
  end.

Definition extract_text (html : list char) : list char :=
  let text := get_text html in
  join [SP] (split text).

Definition scrape_step (entries : list (gmap string (list char)))
    (url : list char) : list (gmap string (list char)) :=
  match fetch_page url with
  | None => entries
  | Some html =>
      entries ++ [ {[ "url"%string := url;
                      "content"%string := extract_text html ]} ]
  end.

Definition scrape : list (gmap string (list char)) :=
  foldl scrape_step [] HIPAA_URLS.

(** [main]: the entries handed to [save], if [save] is called. *)
Definition main : option (list (gmap string (list char))) :=
  let entries := scrape in
  match entries with
  | [] => None
  | _ :: _ => Some entries
  end.

(** No two neighbours of [t] are both white space. *)
Fixpoint single_spaced (t : list char) : Prop :=
  match t with
  | [] => True
  | c :: t' =>
      match t' with
      | [] => True
      | d :: _ => (is_space c = true -> is_space d = false) /\ single_spaced t'
      end
  end.

(** A word as [split] returns them. *)
Definition is_word (w : list char) : Prop :=
  w <> [] /\ Forall (fun c => is_space c = false) w.
End Scraper.

Section ScraperFacts.
Context {char : Type} `{Countable char}.
Variable is_space : char -> bool.
Variable SP : char.
Implicit Types s t w word html url : list char.
Implicit Types ws words : list (list char).

Local Abbreviation visible := (fun c : char => negb (is_space c)).
Local Abbreviation word_ok := (is_word is_space).

Lemma split_words_spec s : forall word,
  Forall (fun c => is_space c = false) word ->
  Forall word_ok (split_words is_space word s) /\
  concat (split_words is_space word s) = word ++ List.filter visible s.
Proof.
  induction s as [|c s IH]; intros word Hword; simpl.
  - destruct word as [|x word]; simpl.
    + split; [constructor|reflexivity].
    + split; [constructor; [split; [discriminate|exact Hword]|constructor]|].
      rewrite !app_nil_r. reflexivity.
  - destruct (is_space c) eqn:Hc; simpl.
    + destruct (IH [] (List.Forall_nil _)) as [IHw IHc].
      destruct word as [|x word]; simpl.
      * split; [exact IHw|exact IHc].
      * split; [constructor; [split; [discriminate|exact Hword]|exact IHw]|].
        rewrite IHc. reflexivity.
    + destruct (IH (word ++ [c])) as [IHw IHc].
      { apply Forall_app. split; [exact Hword|repeat constructor; exact Hc]. }
      split; [exact IHw|]. rewrite IHc, <- app_assoc. reflexivity.
Qed.

Lemma split_words_word w : forall word t,
  Forall (fun c => is_space c = false) w ->
  split_words is_space word (w ++ t) = split_words is_space (word ++ w) t.
Proof.
  induction w as [|c w IH]; intros word t Hw; simpl.
  - rewrite app_nil_r. reflexivity.
  - inversion Hw as [|? ? Hc Hw']; subst. rewrite Hc, IH by exact Hw'.
    rewrite <- app_assoc. reflexivity.
Qed.

Lemma split_words_space (c : char) word t :
  is_space c = true ->
  split_words is_space word (c :: t)
  = if str_truthy word then word :: split_words is_space [] t
    else split_words is_space [] t.
Proof. intros Hc. simpl. rewrite Hc. reflexivity. Qed.

Lemma split_join words :
  is_space SP = true -> Forall word_ok words ->
  split is_space (join [SP] words) = words.
Proof.
  intros HSP Hwords. unfold split.
  induction Hwords as [|w words [Hne Hw] Hrest IH]; [reflexivity|].
  destruct words as [|w2 words].
  - simpl. pose proof (split_words_word w [] [] Hw) as Heq.
    rewrite app_nil_r in Heq. rewrite Heq. simpl.
    destruct w; [congruence|reflexivity].
  - change (join [SP] (w :: w2 :: words))
      with (w ++ SP :: join [SP] (w2 :: words)).
    rewrite split_words_word, split_words_space, IH by assumption.
    destruct w; [congruence|reflexivity].
Qed.

Lemma join_head w words : word_ok w ->
  exists c t, join [SP] (w :: words) = c :: t /\ is_space c = false.
Proof.
  intros [Hne Hw]. destruct w as [|c w]; [congruence|].
  inversion Hw; subst. exists c.
  destruct words; simpl; eauto.
Qed.

Lemma join_no_leading_space words :
  Forall word_ok words -> no_leading_space is_space (join [SP] words).
Proof.
  intros Hall. destruct Hall as [|w ws Hw _]; [exact I|].
  destruct (join_head w ws Hw) as [c [t [-> Hc]]]. exact Hc.
Qed.

Lemma join_no_trailing_space words :
  Forall word_ok words ->
  no_leading_space is_space (reverse (join [SP] words)).
Proof.
  induction 1 as [|w words Hw Hrest IH]; [exact I|].
  destruct words as [|w2 words].
  - simpl. destruct Hw as [Hne Hall]. apply Forall_reverse in Hall.
    destruct (reverse w) as [|c r] eqn:Hr; [exact I|].
    inversion Hall. assumption.
  - change (join [SP] (w :: w2 :: words))
      with (w ++ [SP] ++ join [SP] (w2 :: words)).
    rewrite !reverse_app.
    inversion Hrest as [|? ? Hw2 _]; subst.
    destruct (join_head w2 words Hw2) as [c [t [Heq _]]].
    destruct (reverse (join [SP] (w2 :: words))) as [|d r] eqn:Hr.
    + apply (f_equal reverse) in Hr. rewrite reverse_involutive in Hr.
      rewrite Heq in Hr. discriminate.
    + exact IH.
Qed.

Lemma single_spaced_word w t :
  Forall (fun c => is_space c = false) w ->
  single_spaced is_space t -> single_spaced is_space (w ++ t).
Proof.
  induction 1 as [|c w Hc _ IH]; intros Ht; [exact Ht|].
  specialize (IH Ht). simpl.
  destruct (w ++ t) as [|d r]; [exact I|].
  split; [congruence|exact IH].
Qed.

Lemma join_single_spaced words :
  Forall word_ok words -> single_spaced is_space (join [SP] words).
Proof.
  induction 1 as [|w words [Hne Hw] Hrest IH]; [exact I|].
  destruct words as [|w2 words].
  - simpl. rewrite <- (app_nil_r w). apply single_spaced_word; [exact Hw|exact I].
  - change (join [SP] (w :: w2 :: words))
      with (w ++ SP :: join [SP] (w2 :: words)).
    apply single_spaced_word; [exact Hw|].
    inversion Hrest as [|? ? Hw2 _]; subst.
    destruct (join_head w2 words Hw2) as [c [t [Heq Hc]]].
    rewrite Heq in IH |- *.
    split; [intros _; exact Hc|exact IH].
Qed.

Lemma join_spaces words (c : char) :
  Forall word_ok words ->
  c ∈ join [SP] words -> is_space c = true -> c = SP.
Proof.
  induction 1 as [|w words [Hne Hw] Hrest IH]; intros Hin Hc.
  - inversion Hin.
  - assert (c ∉ w) as Hnot.
    { intros Hcw. rewrite Forall_forall in Hw. specialize (Hw c Hcw).
      congruence. }
    destruct words as [|w2 words]; [contradiction|].
    change (join [SP] (w :: w2 :: words))
      with (w ++ SP :: join [SP] (w2 :: words)) in Hin.
    apply elem_of_app in Hin as [Hin|Hin]; [contradiction|].
    apply elem_of_cons in Hin as [->|Hin]; [reflexivity|].
    apply IH; assumption.
Qed.

Lemma join_visible words :
  is_space SP = true -> Forall word_ok words ->
  List.filter visible (join [SP] words) = concat words.
Proof.
  intros HSP. induction 1 as [|w words [Hne Hw] Hrest IH]; [reflexivity|].
  assert (List.filter visible w = w) as Hfw.
  { clear Hne. induction Hw as [|c w Hc _ IHw]; [reflexivity|].
    simpl. rewrite Hc. simpl. rewrite IHw. reflexivity. }
  destruct words as [|w2 words].
  - simpl. rewrite app_nil_r. exact Hfw.
  - change (join [SP] (w :: w2 :: words))
      with (w ++ [SP] ++ join [SP] (w2 :: words)).
    assert (List.filter visible [SP] = []) as HfSP
      by (simpl; rewrite HSP; reflexivity).
    rewrite !List.filter_app, Hfw, HfSP, IH. reflexivity.
Qed.

Lemma split_words_ok s : Forall word_ok (split is_space s).
Proof. apply (split_words_spec s []). constructor. Qed.
End ScraperFacts.

Section ScraperClaims.
Context {char : Type} `{Countable char}.
Variable is_space : char -> bool.
Variable SP : char.
Variable lit : string -> list char.
Variable pyexc : Type.
Variable get_text : list char -> list char.
Variable http_get : list char -> pyexc + @response char.
Implicit Types s t html url : list char.

Local Abbreviation text_of := (extract_text is_space SP get_text).
Local Abbreviation fetch := (fetch_page pyexc http_get).
Local Abbreviation scraped := (scrape is_space SP lit pyexc get_text http_get).
Local Abbreviation entry_of url html :=
  ({[ "url"%string := url; "content"%string := text_of html ]}
   : gmap string (list char)).

(** The extracted text is tidy: it neither starts nor ends with white
    space, no two neighbouring characters are both white space, and the
    only white space in it is the space character. *)
Theorem extract_text_tidy html :
  no_leading_space is_space (text_of html) /\
  no_leading_space is_space (reverse (text_of html)) /\
  single_spaced is_space (text_of html) /\
  (forall c, c ∈ text_of html -> is_space c = true -> c = SP).
Proof.
  unfold extract_text.
  pose proof (split_words_ok is_space (get_text html)) as Hwords.
  split; [|split; [|split]].
  - apply join_no_leading_space, Hwords.
  - apply join_no_trailing_space, Hwords.
  - apply join_single_spaced, Hwords.
  - intros c. apply join_spaces, Hwords.
Qed.

(** The extracted text keeps the words: with the space character among
    the white space, it has the words of the parsed text, the same
    characters that are not white space in the same order, and
    extracting once more would change nothing. *)
Theorem extract_text_keeps_words html :
  is_space SP = true ->
  split is_space (text_of html) = split is_space (get_text html) /\
  List.filter (fun c => negb (is_space c)) (text_of html)
  = List.filter (fun c => negb (is_space c)) (get_text html) /\
  join [SP] (split is_space (text_of html)) = text_of html.
Proof.
  intros HSP. unfold extract_text.
  pose proof (split_words_ok is_space (get_text html)) as Hwords.
  assert (split is_space (join [SP] (split is_space (get_text html)))
          = split is_space (get_text html)) as Hsplit
    by (apply split_join; assumption).
  split; [exact Hsplit|]. split.
  - rewrite join_visible by assumption.
    apply (split_words_spec is_space (get_text html) []). constructor.
  - rewrite Hsplit. reflexivity.
Qed.

Lemma scrape_fold (urls : list (list char)) :
  forall entries,
    foldl (scrape_step is_space SP pyexc get_text http_get) entries urls
    = entries ++ omap (fun url => (fun html => entry_of url html) <$> fetch url) urls.
Proof.
  induction urls as [|url urls IH]; intros entries.
  - simpl. rewrite app_nil_r. reflexivity.
  - cbn [foldl omap list_omap]. rewrite IH. unfold scrape_step.
    destruct (fetch url) as [html|]; simpl.
    + rewrite <- app_assoc. reflexivity.
    + reflexivity.
Qed.

Lemma scrape_omap :
  scraped = omap (fun url => (fun html => entry_of url html) <$> fetch url)
              (HIPAA_URLS lit).
Proof. unfold scrape. apply scrape_fold. Qed.

(** [scrape] returns one entry for each URL that could be fetched, in
    the order of [HIPAA_URLS] and so at most two, each with the URL and
    the extracted text of its page. *)
Theorem scrape_entries :
  map (fun entry => entry !! "url"%string) scraped
  = map Some (List.filter (fun url => bool_decide (is_Some (fetch url)))
                (HIPAA_URLS lit)) /\
  (length scraped <= 2)%nat /\
  Forall (fun entry =>
            exists url html,
              fetch url = Some html /\
              entry !! "url"%string = Some url /\
              entry !! "content"%string = Some (text_of html) /\
              dom entry = {[ "url"%string; "content"%string ]})
         scraped.
Proof.
  rewrite scrape_omap. remember (HIPAA_URLS lit) as urls eqn:Hurls.
  split; [|split].
  - clear Hurls. induction urls as [|url urls IH]; [reflexivity|].
    cbn [omap list_omap List.filter].
    destruct (fetch url) as [html|]; simpl.
    + rewrite IH. reflexivity.
    + exact IH.
  - rewrite Hurls. unfold HIPAA_URLS. cbn [omap list_omap].
    destruct (fetch _), (fetch _); simpl; lia.
  - clear Hurls. induction urls as [|url urls IH]; [constructor|].
    cbn [omap list_omap].
    destruct (fetch url) as [html|] eqn:Hfetch; simpl; [|exact IH].
    constructor; [|exact IH]. exists url, html.
    split; [exact Hfetch|]. split; [reflexivity|]. split; [reflexivity|].
    rewrite dom_insert_L, dom_singleton_L. reflexivity.
Qed.

(** [main] saves exactly when some page could be fetched, that is when
    some request raised nothing and was not answered with a status from
    400 to 599; what it saves is the scraped entries, never an empty
    list. *)
Theorem main_saves_when_fetched :
  (main is_space SP lit pyexc get_text http_get = None
   <-> Forall (fun url =>
                 forall r, http_get url = inr r ->
                           400 <= status_code r < 600)
              (HIPAA_URLS lit)) /\
  (forall entries,
     main is_space SP lit pyexc get_text http_get = Some entries ->
     entries = scraped /\ entries <> []).
Proof.
  assert (forall url, fetch url = None <->
                      forall r, http_get url = inr r ->
                                400 <= status_code r < 600) as Hfetch.
  { intros url. unfold fetch_page, is_error_status.
    destruct (http_get url) as [exc|r]; [split; [discriminate|reflexivity]|].
    destruct (Z.leb_spec 400 (status_code r)), (Z.ltb_spec (status_code r) 600);
      simpl; split; try discriminate; try reflexivity.
    - intros _ r' [= <-]. lia.
    - intros Hr. specialize (Hr r eq_refl). lia.
    - intros Hr. specialize (Hr r eq_refl). lia.
    - intros Hr. specialize (Hr r eq_refl). lia. }
  unfold main. rewrite scrape_omap. split.
  - generalize (HIPAA_URLS lit). intros urls.
    induction urls as [|url urls IH]; [split; [constructor|reflexivity]|].
    cbn [omap list_omap]. rewrite Forall_cons, <- Hfetch.
    destruct (fetch url) as [html|]; simpl.
    + split; [discriminate|]. intros [? _]. discriminate.
    + rewrite IH. split; [intros ?; split; [reflexivity|assumption]|tauto].
  - intros entries.
    destruct (omap _ _) as [|entry rest]; [discriminate|].
    intros [= <-]. split; [reflexivity|discriminate].
Qed.
End ScraperClaims.

(** * Concrete runs of the further properties *)

Module Service.
Import AsciiText.

(** [posixpath.splitext]: the extension starts at the last dot of the
    last path component, leading dots of that component apart. *)
Fixpoint rfind_from (c : ascii) (p : list ascii) (i found : Z) : Z :=
  match p with
  | [] => found
  | x :: p' => rfind_from c p' (i + 1) (if decide (x = c) then i else found)
  end.

Definition rfind (c : ascii) (p : list ascii) : Z := rfind_from c p 0 (-1).

Definition splitext (p : list ascii) : list ascii * list ascii :=
  let sepIndex := rfind "/"%char p in
  let dotIndex := rfind "."%char p in
  if sepIndex <? dotIndex then
    let leading :=
      take (Z.to_nat (dotIndex - (sepIndex + 1)))
           (drop (Z.to_nat (sepIndex + 1)) p) in
    if forallb (fun x => bool_decide (x = "."%char)) leading then (p, [])
    else (take (Z.to_nat dotIndex) p, drop (Z.to_nat dotIndex) p)
  else (p, []).

(** A reader that finds two pages without text in a file that starts
    with the PDF marker, and cannot open anything else. *)
Definition open_pdf (file_bytes : list ascii)
    : string + list (string + list ascii) :=
  if startswith file_bytes (py "%PDF") then inr [inr []; inr []]
  else inl "cannot open broken document"%string.

(** Bytes above 127 start no character here and are left out. *)
Definition decode_ignore (file_bytes : list ascii) : string + list ascii :=
  inr (List.filter (fun b => (N_of_ascii b <? 128)%N) file_bytes).

Definition environ : gmap string (list ascii) :=
  {[ "REGIMED_RULES_FILE"%string := py "rules.txt" ]}.

Definition upload (name : string) (file_bytes : list ascii)
    : outcome string (@ComplianceReport ascii) :=
  upload_file lower is_space LF CR py splitext ascii string open_pdf
    decode_ignore environ (py "/srv/app/rules.txt") disk
    (Some (py name)) file_bytes.

(** A server that answers the first address and has lost the second. *)
Definition http_get (url : list ascii) : string + @response ascii :=
  if decide (url = py "https://www.hhs.gov/hipaa/for-professionals/privacy/index.html")
  then inr (HttpResponse 200 (py "  HIPAA   Privacy" ++ [LF] ++ py "Rule "))
  else inr (HttpResponse 404 (py "Not Found")).

(** A parser that leaves the text as it is. *)
Definition get_text (html : list ascii) : list ascii := html.
End Service.

Module ServiceRuns.
Import AsciiText Service.

Example splitext_examples :
  splitext (py "report.final.PDF") = (py "report.final", py ".PDF") /\
  splitext (py "uploads/.hidden") = (py "uploads/.hidden", []) /\
  splitext (py "v1.2/notes") = (py "v1.2/notes", []).
Proof. vm_compute. repeat split. Qed.

Lemma threshold_monotone_run :
  (1 # 10 <= 9 # 10)%Q /\
  summarize_missing (check "b only here" ["a"; "b"]%string (1 # 10))
  `sublist_of`
  summarize_missing (check "b only here" ["a"; "b"]%string (9 # 10)).
Proof.
  assert (1 # 10 <= 9 # 10)%Q as Hle by (vm_compute; discriminate).
  split; [exact Hle|].
  exact (proj2 (threshold_monotone lower (py "b only here")
                  [py "a"; py "b"] (1 # 10) (9 # 10) Hle)).
Defined.

Lemma nonpositive_threshold_run :
  (0 <= 0)%Q /\
  summarize_missing (check "b only here" ["a"; "b"]%string 0) = [].
Proof.
  assert (0 <= 0)%Q as Hle by (vm_compute; discriminate).
  split; [exact Hle|].
  exact (proj2 (nonpositive_threshold_finds_all lower (py "b only here")
                  [py "a"; py "b"] 0 Hle)).
Defined.

Lemma high_threshold_run :
  (1 < 3 # 2)%Q /\
  Forall2 (fun rule d =>
             exists found : bool,
               d !! "found"%string = Some (VBool found) /\
               (found = true <-> substring (lower rule) (lower (py "ba"))))
          [py "ab"; py "A"] (check "ba" ["ab"; "A"]%string (3 # 2)).
Proof.
  assert (1 < 3 # 2)%Q as Hlt by reflexivity.
  split; [exact Hlt|].
  exact (high_threshold_substring_only lower (py "ba") [py "ab"; py "A"]
           (3 # 2) Hlt).
Defined.

Lemma single_lines_run :
  (is_space LF = true /\ CR <> LF /\
   load "rules.txt"
   = Ok [py "Patient data must be encrypted";
         py "Access logs retained for six years"]) /\
  Forall (fun rule => (LF ∉ rule) /\ (CR ∉ rule))
         [py "Patient data must be encrypted";
          py "Access logs retained for six years"].
Proof.
  assert (is_space LF = true) as HLF by reflexivity.
  assert (CR <> LF) as Hne by discriminate.
  assert (load "rules.txt"
          = Ok [py "Patient data must be encrypted";
                py "Access logs retained for six years"]) as Hload
    by (vm_compute; reflexivity).
  split; [repeat split; assumption|].
  exact (load_rules_single_lines is_space LF CR disk (py "rules.txt") _
           HLF Hne Hload).
Defined.

Lemma blank_file_run :
  (is_space LF = true /\
   Forall (fun c => is_space c = true) (py "  " ++ [CR; LF] ++ py " ")) /\
  load_rules is_space LF CR
    (fun _ => Ok (File (Ok (py "  " ++ [CR; LF] ++ py " ")) (Ok tt)))
    (py "rules.txt")
  = Ok [].
Proof.
  assert (is_space LF = true) as HLF by reflexivity.
  assert (Forall (fun c => is_space c = true) (py "  " ++ [CR; LF] ++ py " "))
    as Hblank by (repeat constructor).
  split; [split; assumption|].
  exact (load_rules_blank_file is_space LF CR
           (fun _ => Ok (File (Ok (py "  " ++ [CR; LF] ++ py " ")) (Ok tt)))
           (py "rules.txt")
           (File (Ok (py "  " ++ [CR; LF] ++ py " ")) (Ok tt))
           (py "  " ++ [CR; LF] ++ py " ")
           HLF Hblank eq_refl eq_refl eq_refl).
Defined.

Lemma rules_unavailable_run :
  disk (py "nowhere.txt") = Raise FileNotFoundError /\
  upload_report lower is_space LF CR disk (py "nowhere.txt")
    (py "doc.txt") (py "anything at all")
  = Ok (compliance_report lower (py "doc.txt") (py "anything at all") []) /\
  upload_report lower is_space LF CR disk (py "locked.txt")
    (py "doc.txt") (py "anything at all")
  = Raise PermissionError.
Proof.
  split; [reflexivity|]. split.
  - exact (proj1 (upload_report_rules_unavailable lower is_space LF CR disk
                    (py "nowhere.txt") (py "doc.txt") (py "anything at all")
                    FileNotFoundError eq_refl)).
  - exact (proj1 (upload_report_rules_unavailable lower is_space LF CR disk
                    (py "locked.txt") (py "doc.txt") (py "anything at all")
                    PermissionError eq_refl)).
Defined.

Lemma pdf_without_text_run :
  exists response,
    upload "scan.PDF" (py "%PDF-1.7 image only") = Response response /\
    missing_rules response
    = [VStr (py "Patient data must be encrypted");
       VStr (py "Access logs retained for six years")] /\
    rules_found response = 0 /\
    compliant response = false.
Proof.
  destruct (upload_pdf_without_text lower is_space LF CR py splitext
              ascii string open_pdf decode_ignore environ
              (py "/srv/app/rules.txt") Scenarios.lower_nil
              Scenarios.lower_nonempty disk (Some (py "scan.PDF"))
              (py "%PDF-1.7 image only") [inr []; inr []]
              [py "Patient data must be encrypted";
               py "Access logs retained for six years"])
    as [response (Hup & Hmissing & Hfound & _ & Hcompliant)].
  - vm_compute. reflexivity.
  - discriminate.
  - vm_compute. reflexivity.
  - repeat constructor.
  - vm_compute. reflexivity.
  - exists response. split; [exact Hup|]. split; [exact Hmissing|].
    split; [exact Hfound|]. apply Hcompliant. discriminate.
Defined.

Lemma keeps_words_run :
  is_space " "%char = true /\
  extract_text is_space " "%char get_text
    (py "  HIPAA   Privacy" ++ [LF] ++ py "Rule ")
  = py "HIPAA Privacy Rule" /\
  split is_space (extract_text is_space " "%char get_text
                    (py "  HIPAA   Privacy" ++ [LF] ++ py "Rule "))
  = [py "HIPAA"; py "Privacy"; py "Rule"].
Proof.
  split; [reflexivity|]. split; [vm_compute; reflexivity|].
  rewrite (proj1 (extract_text_keeps_words is_space " "%char get_text
                    (py "  HIPAA   Privacy" ++ [LF] ++ py "Rule ")
                    eq_refl)).
  vm_compute. reflexivity.
Defined.

Example upload_examples :
  upload "notes.docx" (py "text")
  = HTTPException 400 "Only .pdf and .txt files are supported" None /\
  upload "notes.txt" []
  = HTTPException 400 "Uploaded file is empty" None /\
  upload "broken.pdf" (py "not a document")
  = HTTPException 400 "Could not parse PDF: "
      (Some "cannot open broken document"%string).
Proof. vm_compute. repeat split. Qed.

Example scrape_example :
  map (fun entry => (entry !! "url"%string, entry !! "content"%string))
      (scrape is_space " "%char py string get_text http_get)
  = [(Some (py "https://www.hhs.gov/hipaa/for-professionals/privacy/index.html"),
      Some (py "HIPAA Privacy Rule"))].
Proof. vm_compute. reflexivity. Qed.
End ServiceRuns.
